(** * Domain watchlist monitor ([monitor_domains.py])

    A shallow embedding of the script and the properties of its
    behaviour.  Python [str] values are held as their UTF-8 bytes
    ([string]) and read character by character where the code does so;
    whitespace is the class of [str.isspace], the case mapping of
    characters that are not ASCII comes from the tables of the
    interpreter, which are a parameter.  The outside world (environment
    variables, files, the [whois] command, the mail relay, the clock) is
    a record of oracles, and every function with effects returns the
    list of effects it performed next to its result.  Reading and
    writing files and every step of the mail session can fail; what is
    printed is taken to reach the standard output. *)

From Stdlib Require Import ZArith Ascii String DecimalString.
From stdpp Require Import base strings list gmap.

Local Open Scope Z_scope.

(** ** Python [str] methods *)

Module PyStr.

Definition LF : ascii := ascii_of_nat 10.
Definition CR : ascii := ascii_of_nat 13.
Definition nl : string := String LF EmptyString.
Definition dquote : string := String (ascii_of_nat 34) EmptyString.

(** The letters of ASCII made small and made capital, byte by byte;
    every other byte stays.  [str.lower] itself is [str_lower] below. *)
Definition lower_char (c : ascii) : ascii :=
  let n := N_of_ascii c in
  if ((65 <=? n) && (n <=? 90))%N then ascii_of_N (n + 32) else c.

Definition upper_char (c : ascii) : ascii :=
  let n := N_of_ascii c in
  if ((97 <=? n) && (n <=? 122))%N then ascii_of_N (n - 32) else c.

Fixpoint lower (s : string) : string :=
  match s with
  | EmptyString => EmptyString
  | String c r => String (lower_char c) (lower r)
  end.

Fixpoint upper (s : string) : string :=
  match s with
  | EmptyString => EmptyString
  | String c r => String (upper_char c) (upper r)
  end.

(** The bytes of UTF-8: a byte below 128 is a character of its own, a
    byte from 128 to 191 continues the character begun before it. *)
Definition is_ascii_byte (b : ascii) : bool := (N_of_ascii b <? 128)%N.

Definition is_cont_byte (b : ascii) : bool :=
  let n := N_of_ascii b in ((128 <=? n) && (n <? 192))%N.

Definition starts_with_cont (s : string) : bool :=
  match s with
  | String b _ => is_cont_byte b
  | EmptyString => false
  end.

(** The characters of a text, each as the bytes of its code point. *)
Fixpoint chars (s : string) : list string :=
  match s with
  | EmptyString => []
  | String b r =>
      match chars r with
      | c :: cs =>
          if negb (is_ascii_byte b) && starts_with_cont r
          then String b c :: cs
          else String b EmptyString :: c :: cs
      | [] => [String b EmptyString]
      end
  end.

(** The bytes of a code point. *)
Definition utf8 (cp : N) : string :=
  let byte (n : N) := ascii_of_N n in
  let cont (n : N) := byte (128 + n mod 64)%N in
  if (cp <? 128)%N then String (byte cp) EmptyString
  else if (cp <? 2048)%N then
    String (byte (192 + cp / 64)%N) (String (cont cp) EmptyString)
  else if (cp <? 65536)%N then
    String (byte (224 + cp / 4096)%N)
      (String (cont (cp / 64)%N) (String (cont cp) EmptyString))
  else
    String (byte (240 + cp / 262144)%N)
      (String (cont (cp / 4096)%N)
         (String (cont (cp / 64)%N) (String (cont cp) EmptyString))).

(** The code points [str.isspace] holds of: TAB to CR, FS to US, the
    space, NEL, the no-break space, the Ogham space mark, EN QUAD to
    HAIR SPACE, the line and paragraph separators, the narrow no-break
    space, the medium mathematical space and the ideographic space. *)
Definition whitespace : list N :=
  [ 9; 10; 11; 12; 13; 28; 29; 30; 31; 32; 133; 160; 5760;
    8192; 8193; 8194; 8195; 8196; 8197; 8198; 8199; 8200; 8201; 8202;
    8232; 8233; 8239; 8287; 12288 ]%N.

(** [c.isspace()] for one character *)
Definition is_space (c : string) : bool := bool_decide (c ∈ map utf8 whitespace).

Fixpoint lstrip_chars (cs : list string) : list string :=
  match cs with
  | [] => []
  | c :: r => if is_space c then lstrip_chars r else cs
  end.

Fixpoint rstrip_chars (cs : list string) : list string :=
  match cs with
  | [] => []
  | c :: r =>
      match rstrip_chars r with
      | [] => if is_space c then [] else [c]
      | r' => c :: r'
      end
  end.

Definition strip_chars (cs : list string) : list string :=
  rstrip_chars (lstrip_chars cs).

(** [s.startswith(p)] *)
Fixpoint startswith (s p : string) {struct p} : bool :=
  match p, s with
  | EmptyString, _ => true
  | String _ _, EmptyString => false
  | String a p', String b s' => if decide (a = b) then startswith s' p' else false
  end.

(** [k in s] for two strings *)
Fixpoint contains (k s : string) : bool :=
  startswith s k ||
  match s with
  | EmptyString => false
  | String _ r => contains k r
  end.

(** [s.split(sep)] for a separator of one character *)
Fixpoint split (sep : ascii) (s : string) : list string :=
  match s with
  | EmptyString => [EmptyString]
  | String c r =>
      if decide (c = sep) then EmptyString :: split sep r
      else match split sep r with
           | [] => [String c EmptyString]
           | p :: ps => String c p :: ps
           end
  end.

(** [s * n] *)
Fixpoint repeat_str (s : string) (n : nat) : string :=
  match n with
  | O => EmptyString
  | S n' => s +:+ repeat_str s n'
  end.

(** [str(n)] for a length *)
Definition str_of_nat (n : nat) : string :=
  NilEmpty.string_of_uint (Nat.to_uint n).

(** [bool(s)]: a string is true when it is not empty. *)
Definition truthy (s : string) : bool :=
  match s with EmptyString => false | String _ _ => true end.

(** [bool(l)]: a list is true when it is not empty. *)
Definition nonempty {A} (l : list A) : bool :=
  match l with [] => false | _ :: _ => true end.

(** Joining the pieces written one after the other. *)
Fixpoint concat_str (l : list string) : string :=
  match l with
  | [] => EmptyString
  | x :: r => x +:+ concat_str r
  end.

(** [s.strip()] *)
Definition str_strip (s : string) : string := concat_str (strip_chars (chars s)).

(** Text mode reading translates CR LF and a lone CR to LF. *)
Fixpoint universal_newlines (s : string) : string :=
  match s with
  | EmptyString => EmptyString
  | String c r =>
      if decide (c = CR) then
        String LF (match r with
                   | String c' r' =>
                       if decide (c' = LF) then universal_newlines r'
                       else universal_newlines r
                   | EmptyString => EmptyString
                   end)
      else String c (universal_newlines r)
  end.

(** The lines a text file yields when iterated, each with its
    terminator when it has one. *)
Fixpoint iter_lines (s : string) : list string :=
  match s with
  | EmptyString => []
  | String c r =>
      if decide (c = LF) then nl :: iter_lines r
      else match iter_lines r with
           | [] => [String c EmptyString]
           | l :: ls => String c l :: ls
           end
  end.

Definition file_lines (content : string) : list string :=
  iter_lines (universal_newlines content).

(** [int(s)] on a text of ASCII characters: surrounding whitespace, one
    optional sign, digits, single underscores between digits.  [None]
    is [ValueError].  On such a text the whitespace [int] sets aside is
    the one of the C locale, TAB to CR and the space, without the
    separators FS to US that [str.strip] takes away. *)
Definition is_c_space (b : ascii) : bool :=
  let n := N_of_ascii b in (((9 <=? n) && (n <=? 13)) || (n =? 32))%N.

Fixpoint lstrip_bytes (s : string) : string :=
  match s with
  | EmptyString => EmptyString
  | String b r => if is_c_space b then lstrip_bytes r else s
  end.

Fixpoint rstrip_bytes (s : string) : string :=
  match s with
  | EmptyString => EmptyString
  | String b r =>
      match rstrip_bytes r with
      | EmptyString => if is_c_space b then EmptyString else String b EmptyString
      | r' => String b r'
      end
  end.

Definition digit_val (c : ascii) : option Z :=
  let n := N_of_ascii c in
  if ((48 <=? n) && (n <=? 57))%N then Some (Z.of_N n - 48) else None.

Fixpoint int_digits (s : string) (acc : Z) (after_digit : bool) : option Z :=
  match s with
  | EmptyString => if after_digit then Some acc else None
  | String c r =>
      if decide (c = "_"%char) then
        if after_digit then int_digits r acc false else None
      else match digit_val c with
           | Some d => int_digits r (10 * acc + d) true
           | None => None
           end
  end.

Definition int_of_str (s : string) : option Z :=
  match rstrip_bytes (lstrip_bytes s) with
  | String c r =>
      if decide (c = "+"%char) then int_digits r 0 false
      else if decide (c = "-"%char) then Z.opp <$> int_digits r 0 false
      else int_digits (String c r) 0 false
  | EmptyString => None
  end.

Definition ascii_only (s : string) : bool :=
  forallb is_ascii_byte (list_ascii_of_string s).

Definition count_digits (s : string) : nat :=
  length (List.filter (fun c => bool_decide (is_Some (digit_val c)))
            (list_ascii_of_string s)).

(** What the interpreter brings along and the script does not show:
    the lower-case mapping, the cased and the case-ignorable characters
    of the Unicode database for the characters that are not ASCII
    (each character as its bytes), what [int] makes of a text with
    such characters, the text of the [ValueError] of [int] for a text it
    refuses (it quotes the text the way [repr] does), and the limit on
    the digits of an integer text ([sys.get_int_max_str_digits()],
    [None] for no limit). *)
Class Python := {
  lower_full : string -> string;
  cased : string -> bool;
  case_ignorable : string -> bool;
  int_nonascii : string -> option Z;
  int_error : string -> string;
  max_str_digits : option nat
}.

Definition ascii_letter (b : ascii) : bool :=
  let n := N_of_ascii b in
  (((65 <=? n) && (n <=? 90)) || ((97 <=? n) && (n <=? 122)))%N.

(** The case-ignorable characters of ASCII: apostrophe, full stop,
    colon, circumflex and grave accent. *)
Definition ascii_case_ignorable (b : ascii) : bool :=
  bool_decide (N_of_ascii b ∈ [39; 46; 58; 94; 96]%N).

Definition char_lower {py : Python} (c : string) : string :=
  match c with
  | String b EmptyString =>
      if is_ascii_byte b then String (lower_char b) EmptyString else lower_full c
  | _ => lower_full c
  end.

Definition char_cased {py : Python} (c : string) : bool :=
  match c with
  | String b EmptyString => if is_ascii_byte b then ascii_letter b else cased c
  | _ => cased c
  end.

Definition char_case_ignorable {py : Python} (c : string) : bool :=
  match c with
  | String b EmptyString =>
      if is_ascii_byte b then ascii_case_ignorable b else case_ignorable c
  | _ => case_ignorable c
  end.

Definition capital_sigma : string := utf8 931.
Definition small_sigma : string := utf8 963.
Definition final_small_sigma : string := utf8 962.

Fixpoint skip_ignorable {py : Python} (cs : list string) : list string :=
  match cs with
  | [] => []
  | c :: r => if char_case_ignorable c then skip_ignorable r else cs
  end.

(** The capital sigma is final when a cased character comes before it,
    case-ignorable ones set aside, and none comes after it in the same
    way; [before] has the nearest character first. *)
Definition final_sigma {py : Python} (before after : list string) : bool :=
  match skip_ignorable before with
  | c :: _ => char_cased c
  | [] => false
  end &&
  match skip_ignorable after with
  | c :: _ => negb (char_cased c)
  | [] => true
  end.

Fixpoint lower_chars {py : Python} (before cs : list string) : string :=
  match cs with
  | [] => EmptyString
  | c :: rest =>
      (if decide (c = capital_sigma)
       then if final_sigma before rest then final_small_sigma else small_sigma
       else char_lower c)
      +:+ lower_chars (c :: before) rest
  end.

(** [s.lower()] *)
Definition str_lower {py : Python} (s : string) : string := lower_chars [] (chars s).

(** [int(s)]; the limit on the digits is looked at for a text of more
    than 640 digits only. *)
Definition str_int {py : Python} (s : string) : option Z :=
  if ascii_only s then
    match max_str_digits with
    | Some limit =>
        if (640 <? count_digits s)%nat && (limit <? count_digits s)%nat then None
        else int_of_str s
    | None => int_of_str s
    end
  else int_nonascii s.

End PyStr.
Import PyStr.
Arguments repeat_str : simpl never.

(** ** Exceptions, effects and the world *)

(** The classes of exception the script tells apart.  Every class here
    derives from [Exception]; [OSError] stands for the errors of
    opening, reading and writing a file other than [FileNotFoundError],
    [OtherException] for any class the
    script has no handler of its own for (connection refused, rejected
    login, a missing [whois] program, ...). *)
Inductive exn_class :=
| FileNotFoundError
| OSError
| ValueError
| IndexError
| TimeoutExpired
| OtherException.

(** An exception with its class and its [str(e)]. *)
Record exn := Exn { exn_kind : exn_class; exn_str : string }.

#[global] Instance exn_class_eq_dec : EqDecision exn_class.
Proof. solve_decision. Defined.

(** The two modes the script opens a file for writing with. *)
Inductive open_mode := ModeW | ModeA.

(** The message handed to [smtplib]. *)
Record email := Email {
  Subject : string;
  From : string;
  To : string;
  html_body : string
}.

(** The steps of one mail session, [QUIT] being the one the [with]
    block issues when it is left. *)
Inductive smtp_step := Connect | StartTls | Login | SendMessage | Quit.

(** What a run does to the outside.  [ERun] records the call of
    [subprocess.run] whatever comes of it; a mail event records a step
    that succeeded, so [ESendMessage] is a message the relay accepted;
    [EWrite] is a file opened with mode w, filled with the text and
    closed, [EAppend] the same with mode a: a [with open(...)] statement
    that went through. *)
Inductive event :=
| EPrint (text : string)
| ERun (args : list string) (timeout : Z)
| EConnect (host : string) (port : Z)
| EStartTls
| ELogin (user password : string)
| ESendMessage (msg : email)
| EQuit
| EWrite (path text : string)
| EAppend (path text : string).

(** Where a computation ends: with a value, with an exception on its
    way up, or with [sys.exit(code)], which no handler of the script
    catches. *)
Inductive result (A : Type) :=
| Ret (a : A)
| Raise (e : exn)
| SysExit (code : Z).
Arguments Ret {A} a.
Arguments Raise {A} e.
Arguments SysExit {A} code.

Record IO (A : Type) := MkIO { trace : list event; outcome : result A }.
Arguments MkIO {A} trace outcome.
Arguments trace {A} _.
Arguments outcome {A} _.

#[global] Instance result_ret : MRet result := fun A a => Ret a.
#[global] Instance result_bind : MBind result := fun A B f m =>
  match m with
  | Ret a => f a
  | Raise e => Raise e
  | SysExit c => SysExit c
  end.

#[global] Instance IO_ret : MRet IO := fun A a => MkIO [] (Ret a).
#[global] Instance IO_bind : MBind IO := fun A B f m =>
  match outcome m with
  | Ret a => MkIO (trace m ++ trace (f a)) (outcome (f a))
  | Raise e => MkIO (trace m) (Raise e)
  | SysExit c => MkIO (trace m) (SysExit c)
  end.

Definition lift {A} (r : result A) : IO A := MkIO [] r.
Definition tell (e : event) : IO unit := MkIO [e] (Ret tt).
Definition raise {A} (e : exn) : IO A := MkIO [] (Raise e).
Definition sys_exit {A} (code : Z) : IO A := MkIO [] (SysExit code).

(** [print(s)] and [print(s, end=..., flush=True)] with an empty end *)
Definition print (s : string) : IO unit := tell (EPrint (s +:+ nl)).
Definition print_noend (s : string) : IO unit := tell (EPrint s).

(** [try: body except ...: handler]; the handler answers [None] for an
    exception none of its clauses matches. *)
Definition try_except {A} (body : IO A) (handler : exn -> option (IO A)) : IO A :=
  match outcome body with
  | Raise e =>
      match handler e with
      | Some h => MkIO (trace body ++ trace h) (outcome h)
      | None => body
      end
  | _ => body
  end.

(** [for x in l: body x] *)
Fixpoint for_each {A} (l : list A) (body : A -> IO unit) : IO unit :=
  match l with
  | [] => mret tt
  | x :: r => body x ;; for_each r body
  end.

(** A path of the file system leads to a text file, [content] being
    the text read from it (as UTF-8 bytes, whatever the encoding of the
    file), to something [open] or the reading refuses with an [OSError]
    other than [FileNotFoundError], or to a file whose bytes the encoding
    of the locale cannot decode, the reading of which raises
    [UnicodeDecodeError], a [ValueError]; a path that is not in the map
    does not exist. *)
Inductive file_node :=
| TextFile (content : string)
| Refused (e : string)
| Garbled (e : string).

Record World := {
  environ : gmap string string;
  filesystem : gmap string file_node;
  (** the n-th call of [subprocess.run]: the exception it raises or the
      standard output of the finished command *)
  subprocess_run : nat -> list string -> Z -> exn + string;
  (** the exception a step of the mail session raises, if any *)
  smtp_fault : smtp_step -> option exn;
  (** the exception that writing a file raises, if any: the one of
      [open(path, mode)] (a directory that is missing, a permission), in
      which case the file is left as it was, or the one of a write or of
      the close on leaving the [with] block (a full disk, a text the
      encoding of the locale cannot spell) *)
  write_fault : open_mode -> string -> option exn;
  (** [datetime.now().strftime(...)] at its three places *)
  now_banner : string;
  now_mail : string;
  now_file : string
}.

(** ** Configuration (lines 20-27) *)

Record Config := {
  SMTP_SERVER : string;
  SMTP_PORT : Z;
  SMTP_USER : string;
  SMTP_PASSWORD : string;
  NOTIFY_EMAIL : string;
  WATCHLIST_FILE : string
}.

(** [os.getenv(name, default)] *)
Definition getenv (env : gmap string string) (name dflt : string) : string :=
  default dflt (env !! name).

(** [int(s)] with its [ValueError] *)
Definition py_int {py : Python} (s : string) : result Z :=
  match str_int s with
  | Some n => Ret n
  | None => Raise (Exn ValueError (int_error s))
  end.

Definition load_config {py : Python} (env : gmap string string) : result Config :=
  let server := getenv env "SMTP_SERVER" "smtp.gmail.com" in
  port ← py_int (getenv env "SMTP_PORT" "587");
  mret {| SMTP_SERVER := server;
          SMTP_PORT := port;
          SMTP_USER := getenv env "SMTP_USER" EmptyString;
          SMTP_PASSWORD := getenv env "SMTP_PASSWORD" EmptyString;
          NOTIFY_EMAIL := getenv env "NOTIFY_EMAIL" EmptyString;
          WATCHLIST_FILE := getenv env "WATCHLIST_FILE" "watchlist.txt" |}.

(** ** [get_whois_server] (lines 31-46) *)

Definition servers_items : list (string * string) :=
  [ ("xyz", "whois.nic.xyz");
    ("com", "whois.verisign-grs.com");
    ("net", "whois.verisign-grs.com");
    ("org", "whois.pir.org");
    ("io", "whois.nic.io");
    ("co", "whois.nic.co");
    ("me", "whois.nic.me");
    ("info", "whois.afilias.net");
    ("top", "whois.nic.top");
    ("cn", "whois.cnnic.cn") ].

Definition servers : gmap string string := list_to_map servers_items.

(** [l[-1]] *)
Definition index_last {A} (l : list A) : result A :=
  match last l with
  | Some x => Ret x
  | None => Raise (Exn IndexError "list index out of range")
  end.

Definition get_whois_server {py : Python} (domain : string) : result string :=
  part ← index_last (split "."%char domain);
  let tld := str_lower part in
  mret (default ("whois.nic." +:+ tld) (servers !! tld)).

(** ** [check_domain_whois] (lines 49-92) *)

Definition not_found_keywords : list string :=
  [ "domain not found";
    "no match";
    "not found";
    "no data found";
    "no entries found";
    "status: free";
    "status: available";
    "object does not exist" ].

(** The loop of lines 79-81: [true] stands for leaving the function
    with the available answer at the first keyword found. *)
Fixpoint scan_keywords (keywords : list string) (output : string) : bool :=
  match keywords with
  | [] => false
  | keyword :: rest =>
      if contains keyword output then true else scan_keywords rest output
  end.

(** Lines 65-87, from the standard output to the answer.  The text is
    put in lower case byte by byte: the phrases looked for are ASCII, and
    outside ASCII only U+0130 and U+212A have an ASCII letter in their
    lower case, an i with a combining dot after it and a k, when no phrase
    has a k in it or an i at its end; so every phrase is in [lower stdout]
    exactly when it is in [stdout.lower()]. *)
Definition classify_output (stdout : string) : bool * string :=
  let output := lower stdout in
  if scan_keywords not_found_keywords output then (true, "域名可注册")
  else if contains "domain name:" output || contains "registrar:" output
       then (false, "域名已注册")
       else (false, "无法确定状态").

Definition whois_args (whois_server domain : string) : list string :=
  ["whois"; "-h"; whois_server; domain].

(** [subprocess.run(args, capture_output=True, text=True, timeout=...)]
    as call number [n] of the run; the value is [result.stdout]. *)
Definition run_subprocess (w : World) (n : nat) (args : list string) (timeout : Z)
  : IO string :=
  tell (ERun args timeout) ;;
  match subprocess_run w n args timeout with
  | inl e => raise e
  | inr stdout => mret stdout
  end.

Definition check_domain_whois {py : Python} (w : World) (n : nat) (domain : string)
  : IO (bool * string) :=
  whois_server ← lift (get_whois_server domain);
  try_except
    (stdout ← run_subprocess w n (whois_args whois_server domain) 30;
     mret (classify_output stdout))
    (fun e =>
       match exn_kind e with
       | TimeoutExpired => Some (mret (false, "查询超时"))
       | _ => Some (mret (false, "查询出错: " +:+ exn_str e))
       end).

(** ** [send_email] (lines 95-146) *)

Definition attr (name value : string) : string :=
  name +:+ "=" +:+ dquote +:+ value +:+ dquote.

Definition email_subject (available_domains : list string) : string :=
  "🎉 域名可注册提醒 - 发现 " +:+ str_of_nat (length available_domains)
  +:+ " 个可注册域名！".

Definition body_head : string :=
  concat_str
    [ nl;
      "<html>"; nl;
      "<body " +:+ attr "style" "font-family: Arial, sans-serif; padding: 20px;" +:+ ">"; nl;
      "<h2 " +:+ attr "style" "color: #28a745;" +:+ ">🎉 发现可注册的域名！</h2>"; nl;
      "<p>以下域名当前可以注册：</p>"; nl;
      "<ul " +:+ attr "style" "font-size: 18px;" +:+ ">"; nl ].

Definition body_item (domain : string) : string :=
  "<li " +:+ attr "style" "margin: 10px 0;" +:+ "><strong>" +:+ domain
  +:+ "</strong></li>" +:+ nl.

Definition body_foot (timestamp : string) : string :=
  concat_str
    [ nl;
      "</ul>"; nl;
      "<p " +:+ attr "style" "color: #666;" +:+ ">请尽快抢注！</p>"; nl;
      "<hr>"; nl;
      "<p " +:+ attr "style" "font-size: 12px; color: #999;" +:+ ">"; nl;
      "检测时间: " +:+ timestamp +:+ "<br>"; nl;
      "此邮件由域名监控脚本自动发送"; nl;
      "</p>"; nl;
      "</body>"; nl;
      "</html>"; nl ].

(** Lines 106-126: the body grows by one item for each domain. *)
Definition email_body (timestamp : string) (available_domains : list string) : string :=
  fold_left (fun body domain => body +:+ body_item domain) available_domains body_head
  +:+ body_foot timestamp.

(** One step of the mail session: the exception the world has for it,
    or the step done and recorded. *)
Definition smtp (w : World) (step : smtp_step) (done : event) : IO unit :=
  match smtp_fault w step with
  | Some e => raise e
  | None => tell done
  end.

(** [with ... as server: block]: leaving the block issues [QUIT], also
    when a step of the block has raised; an exception of [QUIT] takes the
    place of the one on its way, otherwise that one goes on. *)
Definition leaving_with (w : World) (block : IO unit) : IO unit :=
  match outcome block with
  | Raise e => MkIO (trace block) (Ret tt) ;; smtp w Quit EQuit ;; raise e
  | _ => block ;; smtp w Quit EQuit
  end.

(** Lines 136-139. *)
Definition smtp_session (w : World) (cfg : Config) (msg : email) : IO unit :=
  smtp w Connect (EConnect (SMTP_SERVER cfg) (SMTP_PORT cfg)) ;;
  leaving_with w
    (smtp w StartTls EStartTls ;;
     smtp w Login (ELogin (SMTP_USER cfg) (SMTP_PASSWORD cfg)) ;;
     smtp w SendMessage (ESendMessage msg)).

(** Lines 104-133, the message. *)
Definition build_message (w : World) (cfg : Config) (available_domains : list string)
  : email :=
  let subject := email_subject available_domains in
  let body := email_body (now_mail w) available_domains in
  {| Subject := subject;
     From := SMTP_USER cfg;
     To := NOTIFY_EMAIL cfg;
     html_body := body |}.

Definition send_email (w : World) (cfg : Config) (available_domains : list string)
  : IO bool :=
  if negb (forallb truthy [SMTP_USER cfg; SMTP_PASSWORD cfg; NOTIFY_EMAIL cfg]) then
    print "⚠️ 邮件配置不完整，跳过发送邮件" ;;
    print "请设置环境变量: SMTP_USER, SMTP_PASSWORD, NOTIFY_EMAIL" ;;
    mret false
  else
    try_except
      (let msg := build_message w cfg available_domains in
       smtp_session w cfg msg ;;
       print ("✅ 邮件已发送到 " +:+ NOTIFY_EMAIL cfg) ;;
       mret true)
      (fun e =>
         Some (print ("❌ 发送邮件失败: " +:+ exn_str e) ;; mret false)).

(** ** [load_watchlist] (lines 149-163) *)

(** The loop of lines 154-158 over the lines the file yields. *)
Fixpoint load_lines {py : Python} (lines domains : list string) : list string :=
  match lines with
  | [] => domains
  | line :: rest =>
      let line := str_strip line in
      if truthy line && negb (startswith line "#")
      then load_lines rest (domains ++ [str_lower line])
      else load_lines rest domains
  end.

(** [open(filepath, "r")] and the reading of the whole file *)
Definition open_read (w : World) (filepath : string) : IO string :=
  match filesystem w !! filepath with
  | None =>
      raise (Exn FileNotFoundError
               ("[Errno 2] No such file or directory: '" +:+ filepath +:+ "'"))
  | Some (Refused e) => raise (Exn OSError e)
  | Some (Garbled e) => raise (Exn ValueError e)
  | Some (TextFile content) => mret content
  end.

Definition load_watchlist {py : Python} (w : World) (filepath : string)
  : IO (list string) :=
  try_except
    (content ← open_read w filepath;
     mret (load_lines (file_lines content) []))
    (fun e =>
       match exn_kind e with
       | FileNotFoundError =>
           Some (print ("❌ 找不到清单文件: " +:+ filepath) ;; sys_exit 1)
       | _ => None
       end).

(** ** [main] (lines 166-224) *)

(** The loop of lines 187-196; [n] counts the lookups made so far. *)
Fixpoint check_all {py : Python} (w : World) (n : nat)
    (domains available_domains : list string) : IO (list string) :=
  match domains with
  | [] => mret available_domains
  | domain :: rest =>
      print_noend ("正在查询: " +:+ domain +:+ " ... ") ;;
      '(is_available, info) ← check_domain_whois w n domain;
      available_domains ←
        (if is_available : bool
         then print ("✅ " +:+ info) ;; mret (available_domains ++ [domain])
         else print ("❌ " +:+ info) ;; mret available_domains);
      check_all w (S n) rest available_domains
  end.

(** The text lines 211-213 write to [available_domains.txt]. *)
Definition result_file_text (timestamp : string) (available_domains : list string)
  : string :=
  fold_left (fun text d => text +:+ (d +:+ nl)) available_domains
    ("# 检测时间: " +:+ timestamp +:+ nl).

(** [with open(path, mode) as f: f.write(...)]: an exception of
    [open], of a write or of the close goes up, and the file does not
    count as written; otherwise the text is written, which is the event
    of the mode. *)
Definition open_and_write (w : World) (mode : open_mode) (path text : string)
  : IO unit :=
  match write_fault w mode path with
  | Some e => raise e
  | None =>
      tell match mode with
           | ModeW => EWrite path text
           | ModeA => EAppend path text
           end
  end.

(** [if os.getenv("GITHUB_OUTPUT"): open(..., "a") ...] *)
Definition github_output (w : World) (text : string) : IO unit :=
  match environ w !! "GITHUB_OUTPUT" with
  | Some path =>
      if truthy path then open_and_write w ModeA path text else mret tt
  | None => mret tt
  end.

(** Lines 209-219, the result file and the output of the trigger. *)
Definition save_results (w : World) (available_domains : list string) : IO unit :=
  open_and_write w ModeW "available_domains.txt"
    (result_file_text (now_file w) available_domains) ;;
  github_output w
    ("available=true" +:+ nl +:+
     "count=" +:+ str_of_nat (length available_domains) +:+ nl).

(** Lines 168-171. *)
Definition banner (w : World) : IO unit :=
  print (repeat_str "=" 60) ;;
  print "域名监控脚本" ;;
  print ("时间: " +:+ now_banner w) ;;
  print (repeat_str "=" 60).

(** Lines 198-224, what follows the loop. *)
Definition report (w : World) (cfg : Config) (available_domains : list string)
  : IO unit :=
  print (repeat_str "-" 60) ;;
  if nonempty available_domains then
    print (nl +:+ "🎉 发现 " +:+ str_of_nat (length available_domains)
           +:+ " 个可注册域名!") ;;
    for_each available_domains (fun d => print ("  ✅ " +:+ d)) ;;
    send_email w cfg available_domains ;;
    save_results w available_domains
  else
    print (nl +:+ "没有发现可注册的域名") ;;
    github_output w ("available=false" +:+ nl).

Definition main {py : Python} (w : World) (cfg : Config) : IO unit :=
  banner w ;;
  domains ← load_watchlist w (WATCHLIST_FILE cfg);
  if negb (nonempty domains) then
    print "⚠️ 清单为空，没有需要监控的域名"
  else
    print (nl +:+ "监控 " +:+ str_of_nat (length domains) +:+ " 个域名:") ;;
    for_each domains (fun d => print ("  - " +:+ d)) ;;
    print (repeat_str "-" 60) ;;
    available_domains ← check_all w 0 domains [];
    report w cfg available_domains.

(** The script run as a program: the module level assignments, then
    [main()]. *)
Definition program {py : Python} (w : World) : IO unit :=
  cfg ← lift (load_config (environ w));
  main w cfg.

(** The exit status of the process: an exception nobody caught ends it
    with a traceback and status 1. *)
Definition exit_status (r : result unit) : Z :=
  match r with
  | Ret _ => 0
  | Raise _ => 1
  | SysExit code => code
  end.

(** ** Notions the properties are stated with *)

(** [k] occurs in [s]. *)
Definition occurs (k s : string) : Prop :=
  exists pre post, s = pre +:+ k +:+ post.

(** One of the phrases occurs in [s]. *)
Definition some_occurs (phrases : list string) (s : string) : Prop :=
  exists k, k ∈ phrases /\ occurs k s.

(** The suffix of a domain in the words of the specification: the
    substring after the last dot, the whole string when it has no dot. *)
Fixpoint suffix (s : string) : string :=
  match s with
  | EmptyString => EmptyString
  | String c r =>
      if contains "." r then suffix r
      else if decide (c = "."%char) then r else s
  end.

(** The host the table of line 34 has for a suffix, with the fallback
    of line 46. *)
Definition host_of (tld : string) : string :=
  default ("whois.nic." +:+ tld) (servers !! tld).

(** A character as [chars] yields it: one ASCII byte, or a byte that
    is not ASCII with the continuation bytes after it. *)
Definition char_form (c : string) : Prop :=
  match c with
  | String b x =>
      (is_ascii_byte b = true -> x = EmptyString) /\
      forallb is_cont_byte (list_ascii_of_string x) = true
  | EmptyString => False
  end.

(** The first of the characters that is not whitespace. *)
Fixpoint first_non_space (cs : list string) : option string :=
  match cs with
  | [] => None
  | c :: r => if is_space c then first_non_space r else Some c
  end.

(** A line of the watchlist counts when it is not blank and not a
    comment. *)
Definition counts (line : string) : bool :=
  match first_non_space (chars line) with
  | None => false
  | Some c => negb (bool_decide (c = "#"))
  end.

(** What the world answers to lookup number [n] when it is made for
    [domain]. *)
Definition whois_reply {py : Python} (w : World) (n : nat) (domain : string)
  : exn + string :=
  match get_whois_server domain with
  | Ret server => subprocess_run w n (whois_args server domain) 30
  | Raise e => inl e
  | SysExit _ => inl (Exn OtherException EmptyString)
  end.

(** The first component of the answer of [check_domain_whois]. *)
Definition classified_available {py : Python} (w : World) (n : nat) (domain : string)
  : bool :=
  match outcome (check_domain_whois w n domain) with
  | Ret (is_available, _) => is_available
  | _ => false
  end.

(** The entries of a watchlist classified available, in the order of
    the watchlist, the first lookup being number [n]. *)
Fixpoint found_available {py : Python} (w : World) (n : nat) (domains : list string)
  : list string :=
  match domains with
  | [] => []
  | d :: rest =>
      if classified_available w n d
      then d :: found_available w (S n) rest
      else found_available w (S n) rest
  end.

(** The mails a trace hands over, the lookups it starts, the files it
    writes and appends to. *)
Definition sent_mails (t : list event) : list email :=
  omap (fun e => match e with ESendMessage m => Some m | _ => None end) t.

Definition lookups (t : list event) : list (list string * Z) :=
  omap (fun e => match e with ERun args timeout => Some (args, timeout) | _ => None end) t.

Definition written (t : list event) : list (string * string) :=
  omap (fun e => match e with EWrite p x => Some (p, x) | _ => None end) t.

Definition appended (t : list event) : list (string * string) :=
  omap (fun e => match e with EAppend p x => Some (p, x) | _ => None end) t.


(** The first of the four steps of lines 136-139 that fails, with its
    exception. *)
Definition first_fault (w : World) : option (smtp_step * exn) :=
  match smtp_fault w Connect with
  | Some e => Some (Connect, e)
  | None =>
      match smtp_fault w StartTls with
      | Some e => Some (StartTls, e)
      | None =>
          match smtp_fault w Login with
          | Some e => Some (Login, e)
          | None =>
              match smtp_fault w SendMessage with
              | Some e => Some (SendMessage, e)
              | None => None
              end
          end
      end
  end.

(** The steps of a mail session among the events of a trace. *)
Definition is_mail_event (e : event) : bool :=
  match e with
  | EConnect _ _ | EStartTls | ELogin _ _ | ESendMessage _ | EQuit => true
  | _ => false
  end.

Definition mail_events (t : list event) : list event :=
  omap (fun e => if is_mail_event e then Some e else None) t.

(** The path of the trigger channel when the environment names one. *)
Definition trigger_channel (w : World) : option string :=
  match environ w !! "GITHUB_OUTPUT" with
  | Some path => if truthy path then Some path else None
  | None => None
  end.

(** The mail credentials are complete. *)
Definition credentials (cfg : Config) : Prop :=
  SMTP_USER cfg <> EmptyString /\ SMTP_PASSWORD cfg <> EmptyString /\
  NOTIFY_EMAIL cfg <> EmptyString.

(** The watchlist of a run once it is loaded. *)
Definition loaded {py : Python} (w : World) (cfg : Config) (domains : list string)
  : Prop :=
  exists content,
    filesystem w !! WATCHLIST_FILE cfg = Some (TextFile content) /\
    load_lines (file_lines content) [] = domains.

(** ** Sample worlds *)

(** A stand-in for the tables of the interpreter, with the three
    capitals the samples use: E with acute, Cyrillic ER and Cyrillic EF,
    and with the message [int] has for a text without quotes, backslashes
    and control characters. *)
Definition sample_python : Python :=
  {| lower_full := fun c =>
       if decide (c = utf8 201) then utf8 233
       else if decide (c = utf8 1056) then utf8 1088
       else if decide (c = utf8 1060) then utf8 1092
       else c;
     cased := fun c => bool_decide (c ∈ map utf8 [201; 233; 1056; 1088; 1060; 1092]%N);
     case_ignorable := fun _ => false;
     int_nonascii := fun _ => None;
     int_error := fun s => "invalid literal for int() with base 10: '" +:+ s +:+ "'";
     max_str_digits := Some 4300%nat |}.

(** The configuration the sample environment gives. *)
Definition sample_cfg : Config :=
  {| SMTP_SERVER := "smtp.gmail.com";
     SMTP_PORT := 587;
     SMTP_USER := "me@example.org";
     SMTP_PASSWORD := "secret";
     NOTIFY_EMAIL := "you@example.org";
     WATCHLIST_FILE := "watchlist.txt" |}.

Definition sample_env : gmap string string :=
  <["SMTP_USER" := "me@example.org"]>
    (<["SMTP_PASSWORD" := "secret"]>
       (<["NOTIFY_EMAIL" := "you@example.org"]>
          (<["GITHUB_OUTPUT" := "/tmp/github_output"]> ∅))).

Definition sample_watchlist : string :=
  concat_str [ "example.com"; nl; nl; "# comment"; nl; "  TEST.IO  "; nl ].

Definition sample_clock_world (env : gmap string string) (fs : gmap string file_node)
  (run : nat -> list string -> Z -> exn + string) (fault : smtp_step -> option exn)
  : World :=
  {| environ := env;
     filesystem := fs;
     subprocess_run := run;
     smtp_fault := fault;
     write_fault := fun _ _ => None;
     now_banner := "2024-05-01 08:00:00";
     now_mail := "2024-05-01 08:00:07";
     now_file := "2024-05-01 08:00:09" |}.

(** The watchlist with a blank line, a comment and a padded line in
    capitals; every lookup finds the domain registered. *)
Definition w_mixed_lines : World :=
  sample_clock_world sample_env
    {[ "watchlist.txt" := TextFile sample_watchlist ]}
    (fun _ _ _ => inr "Registrar: Some Registrar") (fun _ => None).

(** Two domains, both reported free by their registries. *)
Definition w_two_free : World :=
  sample_clock_world sample_env
    {[ "watchlist.txt" := TextFile (concat_str ["foo.xyz"; nl; "bar.com"; nl]) ]}
    (fun n _ _ => match n with
                  | O => inr "DOMAIN NOT FOUND"
                  | _ => inr "No match for domain BAR.COM."
                  end)
    (fun _ => None).



(** Two domains, one registered, one whose lookup times out, one more
    whose lookup cannot start. *)
Definition w_none_free : World :=
  sample_clock_world sample_env
    {[ "watchlist.txt" := TextFile (concat_str ["example.com"; nl; "test.io"; nl; "nowhere.zz"; nl]) ]}
    (fun n _ _ => match n with
                  | O => inr (concat_str ["Domain Name: EXAMPLE.COM"; nl; "Registrar: Some Registrar"; nl])
                  | S O => inl (Exn TimeoutExpired "Command '['whois', '-h', 'whois.nic.io', 'test.io']' timed out after 30 seconds")
                  | _ => inl (Exn OtherException "[Errno 2] No such file or directory: 'whois'")
                  end)
    (fun _ => None).



(** A watchlist path that leads to a directory. *)
Definition w_refused : World :=
  sample_clock_world sample_env
    {[ "watchlist.txt" := Refused "[Errno 21] Is a directory: 'watchlist.txt'" ]}
    (fun _ _ _ => inr "No match") (fun _ => None).

(** ** Notions for the further properties *)

(** The position of the first event of a trace that satisfies a test. *)
Fixpoint first_index (test : event -> bool) (t : list event) : option nat :=
  match t with
  | [] => None
  | e :: r => if test e then Some 0%nat else S <$> first_index test r
  end.

Definition is_starttls (e : event) : bool :=
  match e with EStartTls => true | _ => false end.

Definition is_login (e : event) : bool :=
  match e with ELogin _ _ => true | _ => false end.

Definition is_send (e : event) : bool :=
  match e with ESendMessage _ => true | _ => false end.

(** The same world where the files of [refused] cannot be written. *)
Definition with_write_fault (w : World) (refused : open_mode -> string -> option exn)
  : World :=
  {| environ := environ w;
     filesystem := filesystem w;
     subprocess_run := subprocess_run w;
     smtp_fault := smtp_fault w;
     write_fault := refused;
     now_banner := now_banner w;
     now_mail := now_mail w;
     now_file := now_file w |}.




(** Two free domains, and a result file that cannot be opened. *)
Definition w_result_refused : World :=
  with_write_fault w_two_free
    (fun _ path =>
       if decide (path = "available_domains.txt")
       then Some (Exn OSError "[Errno 13] Permission denied: 'available_domains.txt'")
       else None).



(** A watchlist with a comment behind an ideographic space, a domain in
    capitals with an accent behind a no-break space, and a domain under
    a Cyrillic suffix. *)
Definition unicode_watchlist : string :=
  concat_str
    [ utf8 12288; "# comment"; nl;
      utf8 160; utf8 201; "COLE.FR"; utf8 8195; nl;
      "shop."; utf8 1056; utf8 1060; nl ].

Definition w_unicode_lines : World :=
  sample_clock_world sample_env
    {[ "watchlist.txt" := TextFile unicode_watchlist ]}
    (fun _ _ _ => inr "Registrar: Some Registrar") (fun _ => None).

(** * Facts *)

(** ** The string methods on sample texts *)

Example lower_sample : lower "  TEST.IO  " = "  test.io  ".
Proof. reflexivity. Qed.

Example chars_sample :
  chars (concat_str ["a"; utf8 233; utf8 12288; "#"; utf8 128512])
  = ["a"; utf8 233; utf8 12288; "#"; utf8 128512].
Proof. reflexivity. Qed.

Example str_strip_sample :
  str_strip ("  TEST.IO  " +:+ nl) = "TEST.IO" /\
  str_strip (String (ascii_of_nat 9) (String (ascii_of_nat 31) "a b ")) = "a b" /\
  str_strip (concat_str [utf8 12288; utf8 160; "a"; utf8 8195; "b"; utf8 133])
  = concat_str ["a"; utf8 8195; "b"].
Proof. repeat split; reflexivity. Qed.

Example str_lower_sample :
  str_lower (py := sample_python) "  TEST.IO  " = "  test.io  " /\
  str_lower (py := sample_python) (concat_str [utf8 201; "COLE."; utf8 1056; utf8 1060])
  = concat_str [utf8 233; "cole."; utf8 1088; utf8 1092] /\
  str_lower (py := sample_python)
    (concat_str ["A"; capital_sigma; " "; capital_sigma; "."; capital_sigma; "b"])
  = concat_str ["a"; final_small_sigma; " "; small_sigma; "."; small_sigma; "b"].
Proof. repeat split; reflexivity. Qed.

Example split_sample : split "."%char "a.b..c" = ["a"; "b"; EmptyString; "c"].
Proof. reflexivity. Qed.

Example int_of_str_sample :
  int_of_str " 5_87 " = Some 587 /\ int_of_str "-12" = Some (-12) /\
  int_of_str "smtp" = None /\ int_of_str "1__2" = None /\
  int_of_str EmptyString = None /\
  int_of_str (String (ascii_of_nat 31) "587") = None.
Proof. repeat split; reflexivity. Qed.

Example str_int_sample :
  str_int (py := sample_python) "587" = Some 587 /\
  str_int (py := sample_python) (repeat_str "1" 4301) = None /\
  str_int (py := sample_python) (concat_str ["5"; utf8 65304; "7"]) = None.
Proof. repeat split; vm_compute; reflexivity. Qed.

Example file_lines_sample :
  file_lines ("a" +:+ String CR ("b" +:+ String CR (nl +:+ "c")))
  = ["a" +:+ nl; "b" +:+ nl; "c"].
Proof. reflexivity. Qed.

Example str_of_nat_sample : str_of_nat 0 = "0" /\ str_of_nat 12 = "12".
Proof. split; reflexivity. Qed.

Example repeat_str_sample : repeat_str "-" 3 = "---".
Proof. reflexivity. Qed.

(** ** Strings *)

Section PyStrFacts.

Lemma str_app_cons c s t : String c s +:+ t = String c (s +:+ t).
Proof. reflexivity. Qed.

Lemma str_app_nil_l s : EmptyString +:+ s = s.
Proof. reflexivity. Qed.

Lemma str_app_nil_r s : s +:+ EmptyString = s.
Proof. induction s as [|c s IH]; [reflexivity|]. by rewrite str_app_cons, IH. Qed.

Lemma str_app_assoc s t u : (s +:+ t) +:+ u = s +:+ (t +:+ u).
Proof. induction s as [|c s IH]; [reflexivity|]. by rewrite !str_app_cons, IH. Qed.

Lemma lower_char_idem c : lower_char (lower_char c) = lower_char c.
Proof. by destruct c as [[] [] [] [] [] [] [] []]. Qed.

Lemma lower_upper_char c : lower_char (upper_char c) = lower_char c.
Proof. by destruct c as [[] [] [] [] [] [] [] []]. Qed.

Lemma lower_idem s : lower (lower s) = lower s.
Proof. induction s as [|c s IH]; simpl; [done|]. by rewrite lower_char_idem, IH. Qed.

Lemma lower_upper s : lower (upper s) = lower s.
Proof. induction s as [|c s IH]; simpl; [done|]. by rewrite lower_upper_char, IH. Qed.

Lemma lower_app s t : lower (s +:+ t) = lower s +:+ lower t.
Proof. induction s as [|c s IH]; [done|]. rewrite str_app_cons. simpl. by rewrite IH. Qed.

Lemma startswith_spec s p : startswith s p = true <-> exists post, s = p +:+ post.
Proof.
  revert s. induction p as [|a p IH]; intros s.
  - split; [intros _; by exists s | by destruct s].
  - destruct s as [|b s]; simpl.
    + split; [done | intros [post H]; by rewrite str_app_cons in H].
    + case_decide as Hab.
      * subst b. rewrite IH. split; intros [post H]; exists post.
        -- by rewrite str_app_cons, H.
        -- rewrite str_app_cons in H. by injection H.
      * split; [done|]. intros [post H]. rewrite str_app_cons in H.
        injection H as H1 _. by destruct Hab.
Qed.

Lemma contains_nil k : contains k EmptyString = startswith EmptyString k.
Proof. simpl. apply orb_false_r. Qed.

Lemma contains_cons k c s :
  contains k (String c s) = startswith (String c s) k || contains k s.
Proof. reflexivity. Qed.

Lemma contains_spec k s : contains k s = true <-> occurs k s.
Proof.
  induction s as [|c s IH].
  - rewrite contains_nil, startswith_spec. split.
    + intros [post H]. by exists EmptyString, post.
    + intros ([|a pre] & post & H); [by exists post|].
      by rewrite str_app_cons in H.
  - rewrite contains_cons, orb_true_iff, startswith_spec, IH. split.
    + intros [[post H] | (pre & post & H)].
      * by exists EmptyString, post.
      * exists (String c pre), post. by rewrite str_app_cons, H.
    + intros ([|a pre] & post & H).
      * left. by exists post.
      * right. rewrite str_app_cons in H. injection H as _ H. by exists pre, post.
Qed.

Lemma contains_false k s : contains k s = false <-> ~ occurs k s.
Proof. rewrite <- contains_spec. by destruct (contains k s). Qed.

#[global] Instance occurs_dec k s : Decision (occurs k s).
Proof.
  destruct (contains k s) eqn:H.
  - left. by apply contains_spec.
  - right. by apply contains_false.
Defined.

(** [split] and the suffix *)

Lemma contains_char_cons (sep c : ascii) (r : string) :
  contains (String sep EmptyString) (String c r)
  = bool_decide (sep = c) || contains (String sep EmptyString) r.
Proof. simpl. by case_decide; case_bool_decide. Qed.

Lemma split_no_sep sep s :
  contains (String sep EmptyString) s = false -> split sep s = [s].
Proof.
  induction s as [|c s IH]; [done|].
  rewrite contains_char_cons. intros [H1 H2]%orb_false_elim.
  apply bool_decide_eq_false in H1.
  simpl. destruct (decide (c = sep)) as [->|_]; [done|]. by rewrite IH.
Qed.

Lemma split_with_sep sep s :
  contains (String sep EmptyString) s = true ->
  exists p q qs, split sep s = p :: q :: qs.
Proof.
  induction s as [|c s IH]; [done|].
  rewrite contains_char_cons. intros H. simpl.
  destruct (decide (c = sep)) as [->|Hc].
  - destruct (contains (String sep EmptyString) s) eqn:Hs.
    + destruct (IH eq_refl) as (p & q & qs & ->). by eexists _, _, _.
    + rewrite (split_no_sep _ _ Hs). by eexists _, _, _.
  - rewrite bool_decide_eq_false_2 in H by done.
    destruct (IH H) as (p & q & qs & ->). by eexists _, _, _.
Qed.

Lemma suffix_no_dot s : contains "." s = false -> suffix s = s.
Proof.
  destruct s as [|c s]; [done|].
  rewrite contains_char_cons. intros [H1 H2]%orb_false_elim.
  apply bool_decide_eq_false in H1.
  simpl. rewrite H2. by destruct (decide (c = "."%char)) as [->|_].
Qed.

Lemma split_last s : last (split "."%char s) = Some (suffix s).
Proof.
  induction s as [|c s IH]; [done|].
  simpl. destruct (contains "." s) eqn:Hs.
  - destruct (split_with_sep _ _ Hs) as (p & q & qs & Hsplit).
    rewrite Hsplit in *. by destruct (decide (c = "."%char)).
  - rewrite (split_no_sep _ _ Hs). by destruct (decide (c = "."%char)).
Qed.

(** The suffix has no dot, and it is what follows a dot of the string
    unless the string has none. *)
Lemma suffix_spec s :
  ~ occurs "." (suffix s) /\
  ((~ occurs "." s /\ suffix s = s) \/ exists pre, s = pre +:+ "." +:+ suffix s).
Proof.
  induction s as [|c s [IH1 IH2]].
  - split; [by apply contains_false | left; split; [by apply contains_false | done]].
  - simpl. destruct (contains "." s) eqn:Hs.
    + split; [done|]. right. destruct IH2 as [[H _] | [pre H]].
      * apply contains_false in H. congruence.
      * exists (String c pre). by rewrite str_app_cons, <- H.
    + destruct (decide (c = "."%char)) as [->|Hc].
      * split; [by apply contains_false|]. right. by exists EmptyString.
      * assert (contains "." (String c s) = false) as H.
        { rewrite contains_char_cons, Hs. by rewrite bool_decide_eq_false_2. }
        split; [by apply contains_false|]. left. split; [by apply contains_false | done].
Qed.

(** The characters of a text *)

Lemma concat_str_app l1 l2 : concat_str (l1 ++ l2) = concat_str l1 +:+ concat_str l2.
Proof.
  induction l1 as [|x l1 IH]; [done|]. cbn [concat_str app]. by rewrite IH, str_app_assoc.
Qed.

Lemma concat_chars s : concat_str (chars s) = s.
Proof.
  induction s as [|b r IH]; [done|].
  simpl. destruct (chars r) as [|c cs].
  - simpl in *. by rewrite <- IH.
  - destruct (negb (is_ascii_byte b) && starts_with_cont r); simpl in *;
      by rewrite ?str_app_cons, IH.
Qed.

Lemma chars_head b r c cs :
  chars (String b r) = c :: cs -> exists x, c = String b x.
Proof.
  simpl. destruct (chars r) as [|c' cs'].
  - intros [= <- _]. by eexists.
  - destruct (negb (is_ascii_byte b) && starts_with_cont r); intros [= <- _]; by eexists.
Qed.

Lemma chars_form s : Forall char_form (chars s).
Proof.
  induction s as [|b r IH]; [constructor|].
  simpl. destruct (chars r) as [|c' cs] eqn:Hr.
  - by repeat constructor.
  - apply Forall_cons in IH as [Hc' Hcs].
    destruct (is_ascii_byte b) eqn:Hb; simpl.
    + by repeat constructor.
    + destruct (starts_with_cont r) eqn:Hcont.
      * constructor; [|done]. destruct r as [|b' r']; [done|].
        destruct (chars_head _ _ _ _ Hr) as [x ->].
        destruct Hc' as [_ Hx]. split; [by rewrite Hb|].
        simpl in *. by rewrite Hcont.
      * by repeat constructor.
Qed.

(** A character is not empty, and one that begins with an ASCII byte is
    that byte alone. *)
Lemma chars_shape s c :
  c ∈ chars s ->
  exists b x, c = String b x /\ (is_ascii_byte b = true -> x = EmptyString).
Proof.
  intros Hc. pose proof (chars_form s) as H. rewrite Forall_forall in H.
  specialize (H c Hc). destruct c as [|b x]; [done|]. destruct H as [H _].
  by exists b, x.
Qed.

(** Trimming, on the characters *)

Lemma rstrip_chars_cons c r :
  is_space c = false -> rstrip_chars (c :: r) = c :: rstrip_chars r.
Proof. intros H. simpl. rewrite H. by destruct (rstrip_chars r). Qed.

Lemma first_non_space_elem cs c :
  first_non_space cs = Some c -> c ∈ cs /\ is_space c = false.
Proof.
  induction cs as [|a cs IH]; [done|]. simpl.
  destruct (is_space a) eqn:Ha.
  - intros H. destruct (IH H). split; [by right | done].
  - intros [= <-]. split; [by left | done].
Qed.

Lemma strip_chars_head cs :
  match first_non_space cs with
  | None => strip_chars cs = []
  | Some c => exists r, strip_chars cs = c :: r
  end.
Proof.
  unfold strip_chars. induction cs as [|c cs IH]; [done|].
  simpl. destruct (is_space c) eqn:Hc; [done|].
  rewrite rstrip_chars_cons by done. by eexists.
Qed.

Lemma lstrip_chars_spec cs :
  exists pre, cs = pre ++ lstrip_chars cs /\ Forall (fun c => is_space c = true) pre /\
              match lstrip_chars cs with
              | c :: _ => is_space c = false
              | [] => True
              end.
Proof.
  induction cs as [|c cs (pre & H1 & H2 & H3)].
  - by exists [].
  - simpl. destruct (is_space c) eqn:Hc.
    + exists (c :: pre). rewrite <- app_comm_cons, <- H1. by repeat split; [constructor|].
    + exists []. by rewrite Hc.
Qed.

Lemma rstrip_chars_spec cs :
  exists post, cs = rstrip_chars cs ++ post /\ Forall (fun c => is_space c = true) post /\
               forall r c, rstrip_chars cs = r ++ [c] -> is_space c = false.
Proof.
  induction cs as [|c cs (post & H1 & H2 & H3)].
  - exists []. repeat split; [done|]. by intros [|a r] c H.
  - simpl. destruct (rstrip_chars cs) as [|a t] eqn:Hr.
    + destruct (is_space c) eqn:Hc.
      * exists (c :: post). simpl in H1. subst post.
        repeat split; [by constructor|]. by intros [|a r] b H.
      * exists post. simpl in H1. subst post. repeat split; [done|].
        intros [|a r] b H; simplify_eq/=; [done|]. by destruct r.
    + exists post. rewrite <- app_comm_cons, <- H1. repeat split; [done|].
      intros [|a' r] b H; simplify_eq/=. by eapply H3.
Qed.

(** Trimming takes whitespace away from both ends and nothing else. *)
Lemma strip_chars_spec cs :
  exists pre post,
    cs = pre ++ strip_chars cs ++ post /\
    Forall (fun c => is_space c = true) pre /\
    Forall (fun c => is_space c = true) post /\
    (forall c r, strip_chars cs = c :: r -> is_space c = false) /\
    (forall r c, strip_chars cs = r ++ [c] -> is_space c = false).
Proof.
  destruct (lstrip_chars_spec cs) as (pre & H1 & H2 & H4).
  destruct (rstrip_chars_spec (lstrip_chars cs)) as (post & H5 & H6 & H7).
  exists pre, post. unfold strip_chars. rewrite <- H5, <- H1.
  repeat split; try done.
  intros c r H. destruct (lstrip_chars cs) as [|a t]; [done|].
  rewrite rstrip_chars_cons in H by done. by injection H as <-.
Qed.

Lemma counts_strip l :
  truthy (str_strip l) && negb (startswith (str_strip l) "#") = counts l.
Proof.
  unfold counts, str_strip. pose proof (strip_chars_head (chars l)) as H.
  destruct (first_non_space (chars l)) as [c|] eqn:Hc.
  - destruct H as [r ->]. apply first_non_space_elem in Hc as [Hin _].
    destruct (chars_shape _ _ Hin) as (b & x & -> & Hx).
    cbn [concat_str]. rewrite str_app_cons. simpl. f_equal.
    destruct (decide ("#"%char = b)) as [<-|Hb].
    + rewrite (Hx eq_refl). by rewrite bool_decide_eq_true_2.
    + rewrite bool_decide_eq_false_2; [done|]. intros [= ? _]. by destruct Hb.
  - by rewrite H.
Qed.

Lemma str_strip_empty l : first_non_space (chars l) = None <-> str_strip l = EmptyString.
Proof.
  unfold str_strip. pose proof (strip_chars_head (chars l)) as H. split.
  - intros Hn. by rewrite Hn in H; rewrite H.
  - intros He. destruct (first_non_space (chars l)) as [c|] eqn:Hc; [|done].
    destruct H as [r Hr]. apply first_non_space_elem in Hc as [Hin _].
    destruct (chars_shape _ _ Hin) as (b & x & -> & _).
    rewrite Hr in He. cbn [concat_str] in He. by rewrite str_app_cons in He.
Qed.

End PyStrFacts.

(** On a text of ASCII characters [str.lower] is the lower case of the
    letters from A to Z, whatever the tables of the interpreter. *)
Section LowerAscii.
Context {py : Python}.

Lemma chars_cons_ascii b r :
  is_ascii_byte b = true -> chars (String b r) = String b EmptyString :: chars r.
Proof. intros Hb. cbn [chars]. rewrite Hb. by destruct (chars r). Qed.

Lemma lower_chars_ascii before s :
  ascii_only s = true -> lower_chars before (chars s) = lower s.
Proof.
  revert before. induction s as [|b r IH]; intros before; [done|].
  unfold ascii_only. cbn [list_ascii_of_string forallb].
  intros [Hb Hr]%andb_true_iff. rewrite (chars_cons_ascii _ _ Hb).
  cbn [lower_chars lower]. rewrite (IH _ Hr).
  destruct (decide (String b EmptyString = capital_sigma)) as [H|_]; [discriminate H|].
  unfold char_lower. by rewrite Hb.
Qed.

Lemma str_lower_ascii s : ascii_only s = true -> str_lower s = lower s.
Proof. apply lower_chars_ascii. Qed.

End LowerAscii.
(** ** Sequencing *)

Section Sequencing.
Context {A B : Type}.

Lemma io_eta (m : IO A) : MkIO (trace m) (outcome m) = m.
Proof. by destruct m. Qed.

Lemma bind_ret (a : A) (f : A -> IO B) : mret a ≫= f = f a.
Proof. by destruct (f a) eqn:H; unfold mbind, IO_bind; simpl; rewrite H. Qed.

Lemma bind_lift (a : A) (f : A -> IO B) : lift (Ret a) ≫= f = f a.
Proof. apply bind_ret. Qed.

Lemma bind_eq (m : IO A) (f : A -> IO B) (a : A) :
  outcome m = Ret a -> m ≫= f = MkIO (trace m ++ trace (f a)) (outcome (f a)).
Proof. intros H. unfold mbind, IO_bind. by rewrite H. Qed.

Lemma bind_mk (t : list event) (a : A) (f : A -> IO B) :
  MkIO t (Ret a) ≫= f = MkIO (t ++ trace (f a)) (outcome (f a)).
Proof. reflexivity. Qed.

Lemma bind_raise (m : IO A) (f : A -> IO B) (e : exn) :
  outcome m = Raise e -> m ≫= f = MkIO (trace m) (Raise e).
Proof. intros H. unfold mbind, IO_bind. by rewrite H. Qed.

Lemma bind_exit (m : IO A) (f : A -> IO B) (c : Z) :
  outcome m = SysExit c -> m ≫= f = MkIO (trace m) (SysExit c).
Proof. intros H. unfold mbind, IO_bind. by rewrite H. Qed.

End Sequencing.

Lemma print_then {B} (s : string) (k : IO B) :
  (print s ;; k) = MkIO (EPrint (s +:+ nl) :: trace k) (outcome k).
Proof. reflexivity. Qed.

Lemma for_each_print (l : list string) (f : string -> string) :
  for_each l (fun d => print (f d)) = MkIO (map (fun d => EPrint (f d +:+ nl)) l) (Ret tt).
Proof.
  induction l as [|d l IH]; [done|].
  change (for_each (d :: l) (fun d => print (f d)))
    with (print (f d) ;; for_each l (fun d => print (f d))).
  by rewrite print_then, IH.
Qed.

(** ** The resolver *)

Section Resolver.
Context {py : Python}.

Lemma get_whois_server_eq domain :
  get_whois_server domain = Ret (host_of (str_lower (suffix domain))).
Proof. unfold get_whois_server, index_last. by rewrite split_last. Qed.

Lemma servers_items_NoDup : NoDup servers_items.*1.
Proof. by apply (bool_decide_unpack _). Qed.

Lemma host_of_known tld host : (tld, host) ∈ servers_items -> host_of tld = host.
Proof.
  intros H. unfold host_of, servers.
  by rewrite (elem_of_list_to_map_1 _ _ _ servers_items_NoDup H).
Qed.

Lemma host_of_unknown tld :
  tld ∉ servers_items.*1 -> host_of tld = "whois.nic." +:+ tld.
Proof.
  intros H. unfold host_of, servers.
  by rewrite (not_elem_of_list_to_map_1 _ _ H).
Qed.

Lemma suffix_single_label domain : ~ occurs "." domain -> suffix domain = domain.
Proof. intros H. by apply suffix_no_dot, contains_false. Qed.

End Resolver.

(** A change of the ASCII letters of a text, byte by byte, that leaves
    the lower case of every byte as it is: the text in capitals and the
    text in small letters are the two of them. *)
Section ByteCase.
Context {py : Python} (g : ascii -> ascii) (G : string -> string).
Hypothesis G_nil : G EmptyString = EmptyString.
Hypothesis G_cons : forall b s, G (String b s) = String (g b) (G s).
Hypothesis g_high : forall b, is_ascii_byte b = false -> g b = b.
Hypothesis g_low : forall b, is_ascii_byte b = true -> is_ascii_byte (g b) = true.
Hypothesis g_lower : forall b, lower_char (g b) = lower_char b.
Hypothesis g_letter : forall b, ascii_letter (g b) = ascii_letter b.
Hypothesis g_ignorable : forall b, ascii_case_ignorable (g b) = ascii_case_ignorable b.
Hypothesis g_dot : forall b, g b = "."%char <-> b = "."%char.

Lemma cont_not_ascii b : is_cont_byte b = true -> is_ascii_byte b = false.
Proof. by destruct b as [[] [] [] [] [] [] [] []]. Qed.

Lemma byte_is_ascii b : is_ascii_byte (g b) = is_ascii_byte b.
Proof.
  destruct (is_ascii_byte b) eqn:Hb; [by apply g_low | by rewrite g_high].
Qed.

Lemma byte_is_cont b : is_cont_byte (g b) = is_cont_byte b.
Proof.
  destruct (is_ascii_byte b) eqn:Hb; [|by rewrite g_high].
  pose proof (g_low _ Hb) as Hg.
  destruct (is_cont_byte (g b)) eqn:H1; [apply cont_not_ascii in H1; congruence|].
  destruct (is_cont_byte b) eqn:H2; [apply cont_not_ascii in H2; congruence | done].
Qed.

Lemma conts_fixed x :
  forallb is_cont_byte (list_ascii_of_string x) = true -> G x = x.
Proof.
  induction x as [|b x IH]; [done|]. simpl.
  intros [Hb Hx]%andb_true_iff. rewrite G_cons, (IH Hx).
  by rewrite (g_high _ (cont_not_ascii _ Hb)).
Qed.

Lemma char_high_fixed b x :
  char_form (String b x) -> is_ascii_byte b = false -> G (String b x) = String b x.
Proof. intros [_ H2] Hb. by rewrite G_cons, (conts_fixed _ H2), (g_high _ Hb). Qed.

Lemma char_low_case b x :
  char_form (String b x) -> is_ascii_byte b = true ->
  x = EmptyString /\ G (String b x) = String (g b) EmptyString.
Proof. intros [H1 _] Hb. rewrite (H1 Hb). split; [done|]. by rewrite G_cons, G_nil. Qed.

Lemma chars_case s : chars (G s) = map G (chars s).
Proof.
  induction s as [|b r IH]; [by rewrite G_nil|].
  rewrite G_cons. cbn [chars]. rewrite IH.
  assert (starts_with_cont (G r) = starts_with_cont r) as ->.
  { destruct r as [|b' r']; [by rewrite G_nil|]. rewrite G_cons. apply byte_is_cont. }
  rewrite byte_is_ascii.
  destruct (chars r) as [|c cs]; cbn [map]; [by rewrite G_cons, G_nil|].
  destruct (negb (is_ascii_byte b) && starts_with_cont r); cbn [map];
    by rewrite G_cons, ?G_nil.
Qed.

Lemma capital_sigma_bytes :
  capital_sigma = String (ascii_of_nat 206) (String (ascii_of_nat 163) EmptyString).
Proof. reflexivity. Qed.

Lemma capital_sigma_case c : char_form c -> G c = capital_sigma <-> c = capital_sigma.
Proof.
  destruct c as [|b x]; [done|]. intros Hc.
  destruct (is_ascii_byte b) eqn:Hb.
  - destruct (char_low_case _ _ Hc Hb) as [-> ->].
    rewrite capital_sigma_bytes. split; intros H; discriminate H.
  - by rewrite (char_high_fixed _ _ Hc Hb).
Qed.

Lemma char_lower_case c : char_form c -> char_lower (G c) = char_lower c.
Proof.
  destruct c as [|b x]; [done|]. intros Hc.
  destruct (is_ascii_byte b) eqn:Hb.
  - destruct (char_low_case _ _ Hc Hb) as [-> ->].
    unfold char_lower. by rewrite (g_low _ Hb), Hb, g_lower.
  - by rewrite (char_high_fixed _ _ Hc Hb).
Qed.

Lemma char_cased_case c : char_form c -> char_cased (G c) = char_cased c.
Proof.
  destruct c as [|b x]; [done|]. intros Hc.
  destruct (is_ascii_byte b) eqn:Hb.
  - destruct (char_low_case _ _ Hc Hb) as [-> ->].
    unfold char_cased. by rewrite (g_low _ Hb), Hb, g_letter.
  - by rewrite (char_high_fixed _ _ Hc Hb).
Qed.

Lemma char_case_ignorable_case c :
  char_form c -> char_case_ignorable (G c) = char_case_ignorable c.
Proof.
  destruct c as [|b x]; [done|]. intros Hc.
  destruct (is_ascii_byte b) eqn:Hb.
  - destruct (char_low_case _ _ Hc Hb) as [-> ->].
    unfold char_case_ignorable. by rewrite (g_low _ Hb), Hb, g_ignorable.
  - by rewrite (char_high_fixed _ _ Hc Hb).
Qed.

Lemma skip_ignorable_case cs :
  Forall char_form cs -> skip_ignorable (map G cs) = map G (skip_ignorable cs).
Proof.
  induction 1 as [|c cs Hc _ IH]; [done|].
  cbn [map skip_ignorable]. rewrite (char_case_ignorable_case _ Hc).
  by destruct (char_case_ignorable c).
Qed.

Lemma skip_ignorable_form cs : Forall char_form cs -> Forall char_form (skip_ignorable cs).
Proof.
  induction 1 as [|c cs Hc Hcs IH]; [constructor|].
  cbn [skip_ignorable]. destruct (char_case_ignorable c); [done | by constructor].
Qed.

Lemma final_sigma_case before after :
  Forall char_form before -> Forall char_form after ->
  final_sigma (map G before) (map G after) = final_sigma before after.
Proof.
  intros Hb Ha. unfold final_sigma.
  rewrite !skip_ignorable_case by done.
  apply skip_ignorable_form in Hb, Ha.
  destruct Hb as [|c ? Hc _], Ha as [|c' ? Hc' _]; cbn [map];
    by rewrite ?char_cased_case.
Qed.

Lemma lower_chars_case before cs :
  Forall char_form before -> Forall char_form cs ->
  lower_chars (map G before) (map G cs) = lower_chars before cs.
Proof.
  intros Hb Hcs. revert before Hb.
  induction Hcs as [|c cs Hc Hcs IH]; intros before Hb; [done|].
  cbn [map lower_chars].
  change (G c :: map G before) with (map G (c :: before)).
  rewrite IH by by constructor.
  rewrite (final_sigma_case _ _ Hb Hcs), (char_lower_case _ Hc).
  destruct (decide (G c = capital_sigma)) as [H|H], (decide (c = capital_sigma)) as [H'|H'];
    try done.
  - by apply (capital_sigma_case _ Hc) in H.
  - by apply (capital_sigma_case _ Hc) in H'.
Qed.

(** The lower case of a text does not see the case of its ASCII
    letters. *)
Lemma str_lower_case s : str_lower (G s) = str_lower s.
Proof.
  unfold str_lower. rewrite chars_case.
  apply (lower_chars_case []); [constructor | apply chars_form].
Qed.

Lemma contains_dot_case s : contains "." (G s) = contains "." s.
Proof.
  induction s as [|c s IH]; [by rewrite G_nil|].
  rewrite G_cons, !contains_char_cons, IH. f_equal.
  apply bool_decide_ext. split; intros H.
  - symmetry. by apply g_dot.
  - symmetry. apply g_dot. by symmetry.
Qed.

Lemma suffix_case s : suffix (G s) = G (suffix s).
Proof.
  induction s as [|c s IH]; [by cbn [suffix]; rewrite G_nil|].
  rewrite G_cons. cbn [suffix]. rewrite contains_dot_case.
  destruct (contains "." s); [done|].
  destruct (decide (c = "."%char)) as [Hc|Hc], (decide (g c = "."%char)) as [Hg|Hg];
    [done| | |by rewrite G_cons].
  - apply (proj2 (g_dot c)) in Hc. contradiction.
  - apply (proj1 (g_dot c)) in Hg. contradiction.
Qed.

Lemma get_whois_server_case domain : get_whois_server (G domain) = get_whois_server domain.
Proof. by rewrite !get_whois_server_eq, suffix_case, str_lower_case. Qed.

End ByteCase.

Section AsciiCase.
Context {py : Python}.

Lemma get_whois_server_upper domain :
  get_whois_server (upper domain) = get_whois_server domain.
Proof.
  apply (get_whois_server_case upper_char upper); try done.
  all: intros b; by destruct b as [[] [] [] [] [] [] [] []].
Qed.

Lemma get_whois_server_lower domain :
  get_whois_server (lower domain) = get_whois_server domain.
Proof.
  apply (get_whois_server_case lower_char lower); try done.
  all: intros b; by destruct b as [[] [] [] [] [] [] [] []].
Qed.

End AsciiCase.

(** C2: [get_whois_server] never raises; a suffix of the table, taken
    in lower case, gets the host of its entry, any other suffix gets
    whois.nic. followed by the suffix in lower case; two domains whose
    suffixes have the same lower case get the same host, and so do a
    domain, the domain in capitals and the domain in small letters.  The
    lower case is the one of [str.lower]; on a suffix of ASCII characters
    it is the suffix with its letters from A to Z made small. *)
Theorem C2_get_whois_server {py : Python} (domain : string) :
  let tld := str_lower (suffix domain) in
  (exists host, get_whois_server domain = Ret host) /\
  (forall host,
     (tld, host) ∈ [ ("xyz", "whois.nic.xyz"); ("com", "whois.verisign-grs.com");
                     ("net", "whois.verisign-grs.com"); ("org", "whois.pir.org");
                     ("io", "whois.nic.io"); ("co", "whois.nic.co");
                     ("me", "whois.nic.me"); ("info", "whois.afilias.net");
                     ("top", "whois.nic.top"); ("cn", "whois.cnnic.cn") ] ->
     get_whois_server domain = Ret host) /\
  (tld ∉ ["xyz"; "com"; "net"; "org"; "io"; "co"; "me"; "info"; "top"; "cn"] ->
   get_whois_server domain = Ret ("whois.nic." +:+ tld)) /\
  (forall other,
     str_lower (suffix other) = tld -> get_whois_server other = get_whois_server domain) /\
  get_whois_server (upper domain) = get_whois_server domain /\
  get_whois_server (lower domain) = get_whois_server domain /\
  (ascii_only (suffix domain) = true -> tld = lower (suffix domain)).
Proof.
  intros tld.
  split; [rewrite get_whois_server_eq; by eexists|].
  split; [|split; [|split; [|split; [|split]]]].
  - intros host H. rewrite get_whois_server_eq. fold tld. by rewrite (host_of_known _ _ H).
  - intros H. rewrite get_whois_server_eq. fold tld. by rewrite (host_of_unknown _ H).
  - intros other H. by rewrite !get_whois_server_eq, H.
  - apply get_whois_server_upper.
  - apply get_whois_server_lower.
  - apply str_lower_ascii.
Qed.

Lemma C2_get_whois_server_witness :
  get_whois_server (py := sample_python) "Example.ORG" = Ret "whois.pir.org" /\
  get_whois_server (py := sample_python) "shop.Dev" = Ret "whois.nic.dev" /\
  get_whois_server (py := sample_python) (concat_str ["shop."; utf8 1056; utf8 1060])
  = Ret (concat_str ["whois.nic."; utf8 1088; utf8 1092]) /\
  get_whois_server (py := sample_python) "mail.example.org"
  = get_whois_server (py := sample_python) "Example.ORG".
Proof.
  destruct (C2_get_whois_server (py := sample_python) "Example.ORG")
    as (_ & Htable & _ & Hsame & _).
  destruct (C2_get_whois_server (py := sample_python) "shop.Dev")
    as (_ & _ & Hother & _).
  destruct (C2_get_whois_server (py := sample_python)
              (concat_str ["shop."; utf8 1056; utf8 1060]))
    as (_ & _ & Hcyrillic & _).
  split; [|split; [|split]].
  - apply Htable. vm_compute. do 3 right. left.
  - apply Hother. apply (bool_decide_unpack _). vm_compute. exact I.
  - apply Hcyrillic. apply (bool_decide_unpack _). vm_compute. exact I.
  - apply Hsame. reflexivity.
Defined.

(** C10: for a domain without a dot the whole string, in lower case,
    is the suffix: the host of the table when the table has it,
    whois.nic. followed by the string in lower case otherwise; the empty
    string gives whois.nic. with nothing after it.  The lower case is the
    one of [str.lower]; on a string of ASCII characters it is the string
    with its letters from A to Z made small. *)
Theorem C10_single_label {py : Python} (domain : string) :
  ~ occurs "." domain ->
  let label := str_lower domain in
  suffix domain = domain /\
  (forall host, (label, host) ∈ servers_items -> get_whois_server domain = Ret host) /\
  (label ∉ servers_items.*1 -> get_whois_server domain = Ret ("whois.nic." +:+ label)) /\
  (ascii_only domain = true -> label = lower domain) /\
  get_whois_server EmptyString = Ret "whois.nic.".
Proof.
  intros Hdot label. rewrite get_whois_server_eq.
  rewrite (suffix_single_label _ Hdot). fold label. repeat split.
  - intros host H. by rewrite (host_of_known _ _ H).
  - intros H. by rewrite (host_of_unknown _ H).
  - apply str_lower_ascii.
Qed.

Lemma C10_single_label_witness :
  get_whois_server (py := sample_python) "COM" = Ret "whois.verisign-grs.com" /\
  get_whois_server (py := sample_python) "LocalHost" = Ret "whois.nic.localhost" /\
  get_whois_server (py := sample_python) (concat_str [utf8 1056; utf8 1060])
  = Ret (concat_str ["whois.nic."; utf8 1088; utf8 1092]) /\
  get_whois_server (py := sample_python) EmptyString = Ret "whois.nic.".
Proof.
  assert (~ occurs "." "COM") as H1 by (apply contains_false; reflexivity).
  assert (~ occurs "." "LocalHost") as H2 by (apply contains_false; reflexivity).
  assert (~ occurs "." (concat_str [utf8 1056; utf8 1060])) as H3
    by (apply contains_false; reflexivity).
  destruct (C10_single_label (py := sample_python) "COM" H1)
    as (_ & Htable & _ & _ & Hempty).
  destruct (C10_single_label (py := sample_python) "LocalHost" H2) as (_ & _ & Hother & _).
  destruct (C10_single_label (py := sample_python) _ H3) as (_ & _ & Hcyrillic & _).
  split; [|split; [|split]].
  - apply Htable. apply (bool_decide_unpack _). vm_compute. exact I.
  - apply Hother. apply (bool_decide_unpack _). vm_compute. exact I.
  - apply Hcyrillic. apply (bool_decide_unpack _). vm_compute. exact I.
  - exact Hempty.
Defined.

(** ** The classifier *)

Section Classifier.
Context {py : Python}.

Lemma scan_keywords_spec keywords output :
  scan_keywords keywords output = true <-> some_occurs keywords output.
Proof.
  induction keywords as [|k ks IH]; simpl.
  - split; [done|]. intros (k & H & _). by apply elem_of_nil in H.
  - destruct (contains k output) eqn:Hk.
    + split; [|done]. intros _. exists k. split; [left | by apply contains_spec].
    + rewrite IH. split.
      * intros (k' & H1 & H2). exists k'. split; [by right | done].
      * intros (k' & [->|H1]%elem_of_cons & H2).
        -- apply contains_spec in H2. congruence.
        -- by exists k'.
Qed.

Lemma classify_output_lower text :
  classify_output (lower text) = classify_output text.
Proof. unfold classify_output. by rewrite lower_idem. Qed.

Lemma classify_output_same_lower text text' :
  lower text' = lower text -> classify_output text' = classify_output text.
Proof. intros H. by rewrite <- classify_output_lower, H, classify_output_lower. Qed.

Lemma classify_output_available text :
  some_occurs not_found_keywords (lower text) ->
  classify_output text = (true, "域名可注册").
Proof. intros H%scan_keywords_spec. unfold classify_output. by rewrite H. Qed.

Lemma classify_output_registered text :
  ~ some_occurs not_found_keywords (lower text) ->
  occurs "domain name:" (lower text) \/ occurs "registrar:" (lower text) ->
  classify_output text = (false, "域名已注册").
Proof.
  rewrite <- scan_keywords_spec, <- !contains_spec, <- orb_true_iff.
  intros H1%not_true_is_false H2. unfold classify_output. by rewrite H1, H2.
Qed.

Lemma classify_output_indeterminate text :
  ~ some_occurs not_found_keywords (lower text) ->
  ~ occurs "domain name:" (lower text) ->
  ~ occurs "registrar:" (lower text) ->
  classify_output text = (false, "无法确定状态").
Proof.
  rewrite <- scan_keywords_spec, <- !contains_false.
  intros H1%not_true_is_false H2 H3. unfold classify_output. by rewrite H1, H2, H3.
Qed.

(** The lookup made for a domain and what comes back of it. *)
Lemma check_domain_whois_eq w n domain :
  check_domain_whois w n domain =
  MkIO [ERun (whois_args (host_of (str_lower (suffix domain))) domain) 30]
    (Ret match whois_reply w n domain with
         | inr stdout => classify_output stdout
         | inl e =>
             match exn_kind e with
             | TimeoutExpired => (false, "查询超时")
             | _ => (false, "查询出错: " +:+ exn_str e)
             end
         end).
Proof.
  unfold check_domain_whois, whois_reply. rewrite get_whois_server_eq, bind_lift.
  unfold run_subprocess.
  destruct (subprocess_run w n _ 30) as [[[] msg]|stdout]; reflexivity.
Qed.

End Classifier.

(** C1: once the lookup has returned a text, [check_domain_whois]
    answers from the text in lower case: available when one of the eight
    phrases occurs in it, whatever else occurs; otherwise registered when
    domain name: or registrar: occurs; otherwise indeterminate.  Texts
    that agree up to case get the same answer. *)
Theorem C1_classification {py : Python} (w : World) (n : nat) (domain text : string) :
  whois_reply w n domain = inr text ->
  let output := lower text in
  let phrases :=
    [ "domain not found"; "no match"; "not found"; "no data found";
      "no entries found"; "status: free"; "status: available";
      "object does not exist" ] in
  let answer := outcome (check_domain_whois w n domain) in
  (some_occurs phrases output -> answer = Ret (true, "域名可注册")) /\
  (~ some_occurs phrases output ->
   occurs "domain name:" output \/ occurs "registrar:" output ->
   answer = Ret (false, "域名已注册")) /\
  (~ some_occurs phrases output ->
   ~ occurs "domain name:" output -> ~ occurs "registrar:" output ->
   answer = Ret (false, "无法确定状态")) /\
  (forall w' n' text',
     whois_reply w' n' domain = inr text' -> lower text' = lower text ->
     outcome (check_domain_whois w' n' domain) = answer) /\
  (forall w' n',
     whois_reply w' n' domain = inr (upper text) ->
     outcome (check_domain_whois w' n' domain) = answer).
Proof.
  intros Hreply output phrases answer. subst answer.
  rewrite check_domain_whois_eq, Hreply. simpl. repeat split.
  - intros H. by rewrite classify_output_available.
  - intros H1 H2. by rewrite classify_output_registered.
  - intros H1 H2 H3. by rewrite classify_output_indeterminate.
  - intros w' n' text' Hreply' Hlow.
    rewrite check_domain_whois_eq, Hreply'. simpl.
    by rewrite (classify_output_same_lower _ _ Hlow).
  - intros w' n' Hreply'. rewrite check_domain_whois_eq, Hreply'. simpl.
    by rewrite (classify_output_same_lower _ _ (lower_upper text)).
Qed.

Lemma C1_classification_witness :
  outcome (check_domain_whois (py := sample_python) w_two_free 1 "bar.com")
  = Ret (true, "域名可注册") /\
  outcome (check_domain_whois (py := sample_python) w_none_free 0 "example.com")
  = Ret (false, "域名已注册").
Proof.
  split.
  - refine (proj1 (C1_classification (py := sample_python) w_two_free 1 "bar.com"
                     "No match for domain BAR.COM." eq_refl) _).
    exists "no match". split; [by apply (bool_decide_unpack _)|].
    apply contains_spec. reflexivity.
  - refine (proj1 (proj2 (C1_classification (py := sample_python) w_none_free 0 "example.com" _ eq_refl)) _ _).
    + intros H%scan_keywords_spec. vm_compute in H. discriminate H.
    + left. apply contains_spec. reflexivity.
Defined.

(** ** The loader *)

Section Loader.
Context {py : Python}.

Lemma load_lines_acc lines acc :
  load_lines lines acc
  = acc ++ map (fun line => str_lower (str_strip line)) (List.filter counts lines).
Proof.
  revert acc. induction lines as [|line lines IH]; intros acc; simpl.
  - by rewrite app_nil_r.
  - rewrite counts_strip. destruct (counts line); rewrite IH; [|done].
    by rewrite <- app_assoc.
Qed.

Lemma load_lines_eq lines :
  load_lines lines []
  = map (fun line => str_lower (str_strip line)) (List.filter counts lines).
Proof. apply load_lines_acc. Qed.

Lemma load_lines_app l1 l2 :
  load_lines (l1 ++ l2) [] = load_lines l1 [] ++ load_lines l2 [].
Proof. by rewrite !load_lines_eq, List.filter_app, map_app. Qed.

Lemma counts_spec line :
  counts line = true <-> exists c, first_non_space (chars line) = Some c /\ c <> "#".
Proof.
  unfold counts. destruct (first_non_space (chars line)) as [c|].
  - rewrite negb_true_iff, bool_decide_eq_false. split.
    + intros H. by exists c.
    + by intros (c' & [= <-] & H).
  - split; [done | by intros (c & H & _)].
Qed.

Lemma str_strip_spec line :
  exists pre kept post,
    chars line = pre ++ kept ++ post /\ str_strip line = concat_str kept /\
    line = concat_str pre +:+ str_strip line +:+ concat_str post /\
    Forall (fun c => is_space c = true) pre /\
    Forall (fun c => is_space c = true) post /\
    (forall c r, kept = c :: r -> is_space c = false) /\
    (forall r c, kept = r ++ [c] -> is_space c = false).
Proof.
  destruct (strip_chars_spec (chars line)) as (pre & post & H1 & H2 & H3 & H4 & H5).
  exists pre, (strip_chars (chars line)), post. split_and!; try done.
  unfold str_strip. by rewrite <- !concat_str_app, <- H1, concat_chars.
Qed.

Lemma load_watchlist_text w filepath content :
  filesystem w !! filepath = Some (TextFile content) ->
  load_watchlist w filepath = MkIO [] (Ret (load_lines (file_lines content) [])).
Proof. intros H. unfold load_watchlist, open_read. by rewrite H. Qed.

Lemma load_watchlist_missing w filepath :
  filesystem w !! filepath = None ->
  load_watchlist w filepath
  = MkIO [EPrint ("❌ 找不到清单文件: " +:+ filepath +:+ nl)] (SysExit 1).
Proof. intros H. unfold load_watchlist, open_read. by rewrite H. Qed.

Lemma load_watchlist_refused w filepath e :
  filesystem w !! filepath = Some (Refused e) ->
  load_watchlist w filepath = MkIO [] (Raise (Exn OSError e)).
Proof. intros H. unfold load_watchlist, open_read. by rewrite H. Qed.

Lemma load_watchlist_garbled w filepath e :
  filesystem w !! filepath = Some (Garbled e) ->
  load_watchlist w filepath = MkIO [] (Raise (Exn ValueError e)).
Proof. intros H. unfold load_watchlist, open_read. by rewrite H. Qed.

End Loader.

(** C3: [load_watchlist] trims every line of the file, leaves out the
    lines that are empty once trimmed and those whose first character
    that is not whitespace is #, puts the others in lower case and keeps
    them in the order of the file, twice when they are there twice; the
    four lines of the example give example.com and test.io.  The line is
    read as its characters; trimming takes the whitespace characters away
    from both ends of it, those outside ASCII too, and nothing else; the
    lower case is the one of [str.lower], which on a line of ASCII
    characters makes the letters from A to Z small. *)
Theorem C3_load_watchlist {py : Python} (w : World) (filepath content : string) :
  filesystem w !! filepath = Some (TextFile content) ->
  load_watchlist w filepath
  = MkIO [] (Ret (map (fun line => str_lower (str_strip line))
                    (List.filter counts (file_lines content)))) /\
  (forall lines,
     load_lines lines []
     = map (fun line => str_lower (str_strip line)) (List.filter counts lines)) /\
  (forall line,
     (counts line = true <->
      exists c, first_non_space (chars line) = Some c /\ c <> "#") /\
     (first_non_space (chars line) = None <-> str_strip line = EmptyString) /\
     concat_str (chars line) = line /\
     Forall char_form (chars line) /\
     (ascii_only line = true -> str_lower line = lower line) /\
     exists pre kept post,
       chars line = pre ++ kept ++ post /\ str_strip line = concat_str kept /\
       line = concat_str pre +:+ str_strip line +:+ concat_str post /\
       Forall (fun c => is_space c = true) pre /\
       Forall (fun c => is_space c = true) post /\
       (forall c r, kept = c :: r -> is_space c = false) /\
       (forall r c, kept = r ++ [c] -> is_space c = false)) /\
  (forall c,
     is_space c = true <->
     c ∈ map utf8 [ 9; 10; 11; 12; 13; 28; 29; 30; 31; 32; 133; 160; 5760;
                    8192; 8193; 8194; 8195; 8196; 8197; 8198; 8199; 8200; 8201; 8202;
                    8232; 8233; 8239; 8287; 12288 ]%N) /\
  (forall l1 l2, load_lines (l1 ++ l2) [] = load_lines l1 [] ++ load_lines l2 []) /\
  load_lines ["a.com"; "A.com"; "a.com"] [] = ["a.com"; "a.com"; "a.com"] /\
  load_lines ["example.com"; EmptyString; "# comment"; "  TEST.IO  "] []
  = ["example.com"; "test.io"].
Proof.
  intros Hfile. rewrite (load_watchlist_text _ _ _ Hfile), load_lines_eq.
  split; [done|]. split; [apply load_lines_eq|].
  split; [|split; [|split; [|split]]].
  - intros line. split; [apply counts_spec|]. split; [apply str_strip_empty|].
    split; [apply concat_chars|]. split; [apply chars_form|].
    split; [apply str_lower_ascii | apply str_strip_spec].
  - intros c. unfold is_space. apply bool_decide_eq_true.
  - apply load_lines_app.
  - reflexivity.
  - reflexivity.
Qed.

Lemma C3_load_watchlist_witness :
  load_watchlist (py := sample_python) w_mixed_lines "watchlist.txt"
  = MkIO [] (Ret ["example.com"; "test.io"]) /\
  load_watchlist (py := sample_python) w_unicode_lines "watchlist.txt"
  = MkIO [] (Ret [ concat_str [utf8 233; "cole.fr"];
                   concat_str ["shop."; utf8 1088; utf8 1092] ]).
Proof.
  split.
  - exact (proj1 (C3_load_watchlist (py := sample_python) w_mixed_lines "watchlist.txt"
                    sample_watchlist eq_refl)).
  - exact (proj1 (C3_load_watchlist (py := sample_python) w_unicode_lines "watchlist.txt"
                    unicode_watchlist eq_refl)).
Defined.

(** ** The loop over the watchlist *)

Section Loop.
Context {py : Python}.

Lemma check_domain_whois_total w n domain :
  exists info,
    check_domain_whois w n domain
    = MkIO [ERun (whois_args (host_of (str_lower (suffix domain))) domain) 30]
        (Ret (classified_available w n domain, info)).
Proof.
  unfold classified_available. rewrite check_domain_whois_eq. simpl.
  match goal with |- context [Ret ?r] => destruct r as [b info] end.
  by exists info.
Qed.

Lemma check_all_cons w n domain rest acc :
  exists line,
    check_all w n (domain :: rest) acc
    = let acc' := if classified_available w n domain then acc ++ [domain] else acc in
      MkIO (EPrint ("正在查询: " +:+ domain +:+ " ... ")
            :: ERun (whois_args (host_of (str_lower (suffix domain))) domain) 30
            :: EPrint line
            :: trace (check_all w (S n) rest acc'))
        (outcome (check_all w (S n) rest acc')).
Proof.
  destruct (check_domain_whois_total w n domain) as [info H].
  simpl. rewrite H.
  destruct (classified_available w n domain); by eexists.
Qed.

Lemma check_all_outcome w n domains acc :
  outcome (check_all w n domains acc) = Ret (acc ++ found_available w n domains).
Proof.
  revert n acc. induction domains as [|d r IH]; intros n acc.
  - simpl. by rewrite app_nil_r.
  - destruct (check_all_cons w n d r acc) as [line ->]. simpl.
    rewrite IH. destruct (classified_available w n d); [|done].
    by rewrite <- app_assoc.
Qed.

Lemma check_all_lookups w n domains acc :
  lookups (trace (check_all w n domains acc))
  = map (fun d => (whois_args (host_of (str_lower (suffix d))) d, 30)) domains.
Proof.
  revert n acc. induction domains as [|d r IH]; intros n acc; [done|].
  destruct (check_all_cons w n d r acc) as [line ->]. simpl.
  unfold lookups in *. simpl. by rewrite IH.
Qed.

Lemma check_all_quiet w n domains acc :
  sent_mails (trace (check_all w n domains acc)) = [] /\
  written (trace (check_all w n domains acc)) = [] /\
  appended (trace (check_all w n domains acc)) = [].
Proof.
  revert n acc. induction domains as [|d r IH]; intros n acc; [done|].
  destruct (check_all_cons w n d r acc) as [line ->]. simpl.
  unfold sent_mails, written, appended in *. simpl. apply IH.
Qed.



End Loop.

(** ** The notifier *)

Section Notifier.

Lemma truthy_nonempty s : truthy s = true <-> s <> EmptyString.
Proof. by destruct s. Qed.

Lemma credentials_truthy cfg :
  forallb truthy [SMTP_USER cfg; SMTP_PASSWORD cfg; NOTIFY_EMAIL cfg] = true
  <-> credentials cfg.
Proof.
  unfold credentials. simpl.
  rewrite !andb_true_iff, !truthy_nonempty. tauto.
Qed.

#[global] Instance credentials_dec cfg : Decision (credentials cfg).
Proof. unfold credentials. apply _. Defined.

Ltac faults w :=
  destruct (smtp_fault w Connect) eqn:?;
  destruct (smtp_fault w StartTls) eqn:?;
  destruct (smtp_fault w Login) eqn:?;
  destruct (smtp_fault w SendMessage) eqn:?;
  destruct (smtp_fault w Quit) eqn:?.

Ltac open_session w :=
  unfold try_except, smtp_session, leaving_with, smtp;
  faults w; simpl.


Lemma send_email_returns w cfg available_domains :
  exists b, outcome (send_email w cfg available_domains) = Ret b.
Proof.
  unfold send_email. destruct (forallb _ _); simpl; [|by eexists].
  open_session w; by eexists.
Qed.

Lemma send_email_quiet w cfg available_domains :
  lookups (trace (send_email w cfg available_domains)) = [] /\
  written (trace (send_email w cfg available_domains)) = [] /\
  appended (trace (send_email w cfg available_domains)) = [].
Proof.
  unfold send_email. destruct (forallb _ _); simpl; [|done].
  open_session w; done.
Qed.

Lemma send_email_at_most_one w cfg available_domains :
  sent_mails (trace (send_email w cfg available_domains)) = [] \/
  sent_mails (trace (send_email w cfg available_domains))
  = [build_message w cfg available_domains].
Proof.
  unfold send_email. destruct (forallb _ _); simpl; [|by left].
  open_session w; auto.
Qed.

Lemma send_email_sent w cfg available_domains :
  credentials cfg -> first_fault w = None ->
  sent_mails (trace (send_email w cfg available_domains))
  = [build_message w cfg available_domains] /\
  (smtp_fault w Quit = None ->
   send_email w cfg available_domains
   = MkIO [ EConnect (SMTP_SERVER cfg) (SMTP_PORT cfg); EStartTls;
            ELogin (SMTP_USER cfg) (SMTP_PASSWORD cfg);
            ESendMessage (build_message w cfg available_domains); EQuit;
            EPrint ("✅ 邮件已发送到 " +:+ NOTIFY_EMAIL cfg +:+ nl) ]
       (Ret true)).
Proof.
  intros Hc%credentials_truthy Hf. unfold send_email, first_fault in *. rewrite Hc. simpl.
  open_session w; done.
Qed.

End Notifier.

(** ** The run *)

Section Run.
Context {py : Python}.

Lemma omap_prints {B} (f : event -> option B) (g : string -> string) (l : list string) :
  (forall s, f (EPrint s) = None) -> omap f (map (fun d => EPrint (g d)) l) = [].
Proof. intros H. induction l as [|d l IH]; simpl; [done|]. by rewrite H. Qed.

Lemma omap_print {B} (f : event -> option B) (s : string) (t : list event) :
  (forall s, f (EPrint s) = None) -> omap f (EPrint s :: t) = omap f t.
Proof. intros H. simpl. by rewrite H. Qed.





Lemma occurs_inside k s a b : occurs k s -> occurs k (a +:+ s +:+ b).
Proof.
  intros (pre & post & ->). exists (a +:+ pre), (post +:+ b).
  by rewrite !str_app_assoc.
Qed.


Lemma open_and_write_eq w mode path text :
  open_and_write w mode path text
  = match write_fault w mode path with
    | Some e => MkIO [] (Raise e)
    | None =>
        MkIO [match mode with
              | ModeW => EWrite path text
              | ModeA => EAppend path text
              end] (Ret tt)
    end.
Proof. unfold open_and_write. by destruct (write_fault w mode path). Qed.

Lemma github_output_eq w text :
  github_output w text
  = match trigger_channel w with
    | Some path =>
        match write_fault w ModeA path with
        | Some e => MkIO [] (Raise e)
        | None => MkIO [EAppend path text] (Ret tt)
        end
    | None => MkIO [] (Ret tt)
    end.
Proof.
  unfold github_output, trigger_channel.
  destruct (environ w !! "GITHUB_OUTPUT") as [path|]; [|done].
  destruct (truthy path); [apply open_and_write_eq | done].
Qed.

Lemma save_results_eq w available :
  save_results w available
  = match write_fault w ModeW "available_domains.txt" with
    | Some e => MkIO [] (Raise e)
    | None =>
        MkIO (EWrite "available_domains.txt" (result_file_text (now_file w) available)
              :: trace (github_output w
                          ("available=true" +:+ nl +:+ "count="
                           +:+ str_of_nat (length available) +:+ nl)))
          (outcome (github_output w
                      ("available=true" +:+ nl +:+ "count="
                       +:+ str_of_nat (length available) +:+ nl)))
    end.
Proof.
  unfold save_results. rewrite open_and_write_eq.
  by destruct (write_fault w ModeW "available_domains.txt").
Qed.



Lemma report_none w cfg :
  report w cfg []
  = MkIO (EPrint (repeat_str "-" 60 +:+ nl)
          :: EPrint ((nl +:+ "没有发现可注册的域名") +:+ nl)
          :: trace (github_output w ("available=false" +:+ nl)))
      (outcome (github_output w ("available=false" +:+ nl))).
Proof. unfold report. cbn [nonempty]. by rewrite !print_then. Qed.

Lemma report_found w cfg available :
  available <> [] ->
  report w cfg available
  = MkIO (EPrint (repeat_str "-" 60 +:+ nl)
          :: EPrint ((nl +:+ "🎉 发现 " +:+ str_of_nat (length available)
                      +:+ " 个可注册域名!") +:+ nl)
          :: map (fun d => EPrint (("  ✅ " +:+ d) +:+ nl)) available
          ++ trace (send_email w cfg available)
          ++ trace (save_results w available))
      (outcome (save_results w available)).
Proof.
  intros Hne. unfold report. destruct available as [|d r]; [done|].
  change (nonempty (d :: r)) with true. cbv iota.
  rewrite !print_then.
  rewrite (for_each_print (d :: r) (fun d => "  ✅ " +:+ d)). rewrite bind_mk.
  destruct (send_email_returns w cfg (d :: r)) as [b Hb].
  rewrite (bind_eq _ _ _ Hb). cbn [trace outcome].
  by rewrite <- ?app_assoc.
Qed.

Lemma main_missing w cfg :
  filesystem w !! WATCHLIST_FILE cfg = None ->
  main w cfg
  = MkIO (trace (banner w)
          ++ [EPrint ("❌ 找不到清单文件: " +:+ WATCHLIST_FILE cfg +:+ nl)]) (SysExit 1).
Proof. intros H. unfold main. by rewrite (load_watchlist_missing _ _ H). Qed.

Lemma main_refused w cfg e :
  filesystem w !! WATCHLIST_FILE cfg = Some (Refused e) ->
  main w cfg = MkIO (trace (banner w)) (Raise (Exn OSError e)).
Proof. intros H. unfold main. by rewrite (load_watchlist_refused _ _ _ H). Qed.

Lemma main_garbled w cfg e :
  filesystem w !! WATCHLIST_FILE cfg = Some (Garbled e) ->
  main w cfg = MkIO (trace (banner w)) (Raise (Exn ValueError e)).
Proof. intros H. unfold main. by rewrite (load_watchlist_garbled _ _ _ H). Qed.

Lemma main_empty w cfg :
  loaded w cfg [] ->
  main w cfg
  = MkIO (trace (banner w) ++ [EPrint ("⚠️ 清单为空，没有需要监控的域名" +:+ nl)]) (Ret tt).
Proof.
  intros (content & Hfile & Hlines). unfold main.
  by rewrite (load_watchlist_text _ _ _ Hfile), Hlines.
Qed.

Lemma main_loaded w cfg domains :
  loaded w cfg domains -> domains <> [] ->
  main w cfg
  = MkIO (trace (banner w)
          ++ EPrint ((nl +:+ "监控 " +:+ str_of_nat (length domains) +:+ " 个域名:") +:+ nl)
          :: map (fun d => EPrint (("  - " +:+ d) +:+ nl)) domains
          ++ EPrint (repeat_str "-" 60 +:+ nl)
          :: trace (check_all w 0 domains [])
          ++ trace (report w cfg (found_available w 0 domains)))
      (outcome (report w cfg (found_available w 0 domains))).
Proof.
  intros (content & Hfile & Hlines) Hne. unfold main.
  rewrite (load_watchlist_text _ _ _ Hfile), Hlines.
  destruct domains as [|d r]; [done|].
  change (banner w ;; ?k) with (MkIO (trace (banner w)) (Ret tt) ;; k).
  rewrite !bind_mk. change (negb (nonempty (d :: r))) with false. cbv iota.
  rewrite print_then, (for_each_print (d :: r) (fun d => "  - " +:+ d)), bind_mk.
  rewrite print_then.
  rewrite (bind_eq _ _ _ (check_all_outcome w 0 (d :: r) [])).
  simpl. by rewrite <- ?app_assoc.
Qed.


Lemma program_eq w cfg : load_config (environ w) = Ret cfg -> program w = main w cfg.
Proof. intros H. unfold program. rewrite H. apply bind_lift. Qed.

End Run.

Section Observed.
Context {py : Python}.

Lemma check_all_no_mail w n domains acc :
  mail_events (trace (check_all w n domains acc)) = [].
Proof.
  revert n acc. induction domains as [|d r IH]; intros n acc; [done|].
  destruct (check_all_cons w n d r acc) as [line ->]. simpl. apply IH.
Qed.


Lemma banner_eq w :
  banner w
  = MkIO [ EPrint (repeat_str "=" 60 +:+ nl);
           EPrint ("域名监控脚本" +:+ nl);
           EPrint (("时间: " +:+ now_banner w) +:+ nl);
           EPrint (repeat_str "=" 60 +:+ nl) ] (Ret tt).
Proof. reflexivity. Qed.

(** What the last lines of a run leave behind. *)
Lemma github_output_appended w text :
  appended (trace (github_output w text))
  = match trigger_channel w with
    | Some path =>
        match write_fault w ModeA path with
        | Some _ => []
        | None => [(path, text)]
        end
    | None => []
    end.
Proof.
  rewrite github_output_eq. destruct (trigger_channel w) as [path|]; [|done].
  by destruct (write_fault w ModeA path).
Qed.


Lemma github_output_omap {B} (f : event -> option B) w text :
  (forall p x, f (EAppend p x) = None) -> omap f (trace (github_output w text)) = [].
Proof.
  intros Hf. rewrite github_output_eq. destruct (trigger_channel w) as [path|]; [|done].
  destruct (write_fault w ModeA path); [done|]. simpl. by rewrite Hf.
Qed.

Lemma save_results_omap {B} (f : event -> option B) w available :
  (forall p x, f (EAppend p x) = None) -> (forall p x, f (EWrite p x) = None) ->
  omap f (trace (save_results w available)) = [].
Proof.
  intros Ha Hw. rewrite save_results_eq.
  destruct (write_fault w ModeW "available_domains.txt"); [done|].
  simpl. rewrite Hw. by apply github_output_omap.
Qed.

Lemma save_results_written w available :
  written (trace (save_results w available))
  = match write_fault w ModeW "available_domains.txt" with
    | Some _ => []
    | None => [("available_domains.txt", result_file_text (now_file w) available)]
    end.
Proof.
  rewrite save_results_eq. destruct (write_fault w ModeW "available_domains.txt"); [done|].
  unfold written. simpl. by rewrite github_output_omap.
Qed.

Lemma save_results_appended w available :
  appended (trace (save_results w available))
  = match write_fault w ModeW "available_domains.txt" with
    | Some _ => []
    | None => appended (trace (github_output w
                                 ("available=true" +:+ nl +:+ "count="
                                  +:+ str_of_nat (length available) +:+ nl)))
    end.
Proof.
  rewrite save_results_eq. by destruct (write_fault w ModeW "available_domains.txt").
Qed.




(** An observation that does not see what is printed sees of a run
    what it sees of the loop and of the report. *)
Lemma report_omap {B} (f : event -> option B) w cfg available :
  (forall s, f (EPrint s) = None) ->
  omap f (trace (report w cfg available))
  = if nonempty available
    then omap f (trace (send_email w cfg available))
         ++ omap f (trace (save_results w available))
    else omap f (trace (github_output w ("available=false" +:+ nl))).
Proof.
  intros Hf. destruct available as [|a r].
  - rewrite report_none. cbn [trace nonempty]. by rewrite !omap_print.
  - rewrite report_found by done. cbn [trace nonempty].
    rewrite !omap_print by done.
    by rewrite omap_app, (omap_prints _ (fun d => ("  ✅ " +:+ d) +:+ nl)), omap_app.
Qed.

Lemma main_omap {B} (f : event -> option B) w cfg domains :
  (forall s, f (EPrint s) = None) ->
  loaded w cfg domains -> domains <> [] ->
  omap f (trace (main w cfg))
  = omap f (trace (check_all w 0 domains []))
    ++ omap f (trace (report w cfg (found_available w 0 domains))).
Proof.
  intros Hf Hl Hne. rewrite (main_loaded _ _ _ Hl Hne). cbn [trace].
  rewrite banner_eq. cbn [trace app].
  rewrite !omap_print by done.
  by rewrite omap_app, (omap_prints _ (fun d => ("  - " +:+ d) +:+ nl)),
    omap_print, omap_app.
Qed.

Lemma report_lookups w cfg available : lookups (trace (report w cfg available)) = [].
Proof.
  unfold lookups. rewrite report_omap by done.
  destruct (send_email_quiet w cfg available) as (Hk & _). unfold lookups in Hk.
  rewrite Hk, save_results_omap, github_output_omap by done.
  by destruct (nonempty available).
Qed.

(** What a run shows once its watchlist is loaded and not empty. *)
Lemma main_observed w cfg domains :
  loaded w cfg domains -> domains <> [] ->
  let available := found_available w 0 domains in
  outcome (main w cfg) = outcome (report w cfg available) /\
  lookups (trace (main w cfg))
  = map (fun d => (whois_args (host_of (str_lower (suffix d))) d, 30)) domains /\
  mail_events (trace (main w cfg))
  = (if nonempty available then mail_events (trace (send_email w cfg available)) else []) /\
  written (trace (main w cfg))
  = (if nonempty available then written (trace (save_results w available)) else []) /\
  appended (trace (main w cfg))
  = (if nonempty available then appended (trace (save_results w available))
     else appended (trace (github_output w ("available=false" +:+ nl)))).
Proof.
  intros Hl Hne available.
  destruct (check_all_quiet w 0 domains []) as (_ & Hw & Ha).
  pose proof (check_all_no_mail w 0 domains []) as Hm.
  pose proof (check_all_lookups w 0 domains []) as Hk.
  pose proof (report_lookups w cfg available) as Hrk.
  destruct (send_email_quiet w cfg available) as (_ & Hsw & Hsa).
  split; [by rewrite (main_loaded _ _ _ Hl Hne)|].
  unfold lookups, written, appended, mail_events in *.
  rewrite !(main_omap _ w cfg domains) by done. fold available.
  rewrite Hw, Ha, Hm, Hk, Hrk, app_nil_r. cbn [app].
  rewrite !report_omap by done.
  split; [done|]. destruct (nonempty available).
  - rewrite Hsw, Hsa. cbn [app]. rewrite save_results_omap by done.
    by rewrite app_nil_r.
  - split; [by apply github_output_omap|]. split; [by apply github_output_omap | done].
Qed.

End Observed.

(** ** The properties of a run *)

Section Program.
Context {py : Python}.

Lemma load_config_cases env :
  (exists cfg, load_config env = Ret cfg) \/ (exists e, load_config env = Raise e).
Proof.
  unfold load_config, py_int. destruct (str_int _); [left | right]; by eexists.
Qed.


Lemma main_sent_mails w cfg domains :
  loaded w cfg domains -> domains <> [] ->
  sent_mails (trace (main w cfg))
  = if nonempty (found_available w 0 domains)
    then sent_mails (trace (send_email w cfg (found_available w 0 domains)))
    else [].
Proof.
  intros Hl Hne. unfold sent_mails.
  rewrite (main_omap _ w cfg domains), report_omap by done.
  destruct (check_all_quiet w 0 domains []) as (Hs & _). unfold sent_mails in Hs.
  rewrite Hs. cbn [app]. destruct (nonempty _).
  - rewrite save_results_omap by done. by rewrite app_nil_r.
  - by rewrite github_output_omap.
Qed.

(** The lookups of a run, whatever its watchlist. *)
Lemma main_lookups w cfg domains :
  loaded w cfg domains ->
  lookups (trace (main w cfg))
  = map (fun d => (whois_args (host_of (str_lower (suffix d))) d, 30)) domains.
Proof.
  intros Hl. destruct domains as [|d r].
  - by rewrite (main_empty _ _ Hl), banner_eq.
  - by apply (main_observed _ _ _ Hl).
Qed.


End Program.

Section Failures.



End Failures.




(** A watchlist that exists and cannot be opened ends the run too. *)
Lemma watchlist_refused_is_fatal :
  program (py := sample_python) w_refused
  = MkIO (trace (banner w_refused))
      (Raise (Exn OSError "[Errno 21] Is a directory: 'watchlist.txt'")) /\
  exit_status (outcome (program (py := sample_python) w_refused)) = 1.
Proof. split; vm_compute; reflexivity. Qed.




(** A result file that cannot be opened: the mail has gone out, the
    run ends on the exception of [open], and neither the result file nor
    the file GITHUB_OUTPUT names gets anything. *)
Lemma result_file_refused_run :
  length (sent_mails (trace (program (py := sample_python) w_result_refused))) = 1%nat /\
  written (trace (program (py := sample_python) w_result_refused)) = [] /\
  appended (trace (program (py := sample_python) w_result_refused)) = [] /\
  exit_status (outcome (program (py := sample_python) w_result_refused)) = 1.
Proof. repeat split; vm_compute; reflexivity. Qed.












(** * Further properties *)

(** ** More on the resolver *)

Section MoreResolver.
Context {py : Python}.

Lemma suffix_after_dot a b : suffix (a +:+ "." +:+ b) = suffix b.
Proof.
  induction a as [|c a IH].
  - change (EmptyString +:+ "." +:+ b) with (String "."%char b). cbn [suffix].
    destruct (contains "." b) eqn:Hb; [done|].
    rewrite (suffix_no_dot _ Hb). by destruct (decide _).
  - rewrite str_app_cons. cbn [suffix].
    assert (contains "." (a +:+ "." +:+ b) = true) as ->; [|done].
    apply contains_spec. by exists a, b.
Qed.

Lemma host_of_prefix tld : exists rest, host_of tld = "whois." +:+ rest.
Proof.
  unfold host_of, servers. destruct (list_to_map servers_items !! tld) as [host|] eqn:H.
  - apply elem_of_list_to_map_2 in H. unfold servers_items in H.
    repeat (apply elem_of_cons in H as [[= -> ->]|H]; [by eexists|]).
    by apply elem_of_nil in H.
  - by exists ("nic." +:+ tld).
Qed.

End MoreResolver.

(** X4: every host [get_whois_server] gives starts with whois. and a
    dot, for the entries of the table as for the fallback. *)
Theorem get_whois_server_host_prefix {py : Python} (domain : string) :
  exists rest, get_whois_server domain = Ret ("whois." +:+ rest).
Proof.
  rewrite get_whois_server_eq.
  destruct (host_of_prefix (str_lower (suffix domain))) as [rest ->]. by exists rest.
Qed.

(** X5: [get_whois_server] does not see the case of the ASCII letters
    of the domain: two domains that agree once their letters from A to Z
    are made small get the same host. *)
Theorem get_whois_server_ascii_case_blind {py : Python} (d1 d2 : string) :
  lower d1 = lower d2 -> get_whois_server d1 = get_whois_server d2.
Proof.
  intros H. by rewrite <- (get_whois_server_lower d1), H, get_whois_server_lower.
Qed.

Lemma get_whois_server_ascii_case_blind_witness :
  get_whois_server (py := sample_python) "EXAMPLE.Io"
  = get_whois_server (py := sample_python) "example.IO".
Proof.
  exact (get_whois_server_ascii_case_blind (py := sample_python)
           "EXAMPLE.Io" "example.IO" eq_refl).
Defined.

(** X6: only what follows the last dot counts: labels put in front of
    a name do not change the host, and a name that ends in a dot has the
    empty suffix and gets the host whois.nic. with nothing after it. *)
Theorem get_whois_server_labels {py : Python} (front name : string) :
  get_whois_server (front +:+ "." +:+ name) = get_whois_server name /\
  get_whois_server (front +:+ ".") = Ret "whois.nic.".
Proof.
  split.
  - by rewrite !get_whois_server_eq, suffix_after_dot.
  - rewrite get_whois_server_eq.
    change (front +:+ ".") with (front +:+ "." +:+ EmptyString).
    by rewrite suffix_after_dot.
Qed.

(** ** More on the classifier *)

Section MoreClassifier.

Lemma occurs_trans a b c : occurs a b -> occurs b c -> occurs a c.
Proof. intros (p & q & ->) (p' & q' & ->). by apply occurs_inside; exists p, q. Qed.

Lemma some_occurs_subset ks ks' output :
  (forall k, k ∈ ks -> some_occurs ks' k) -> some_occurs ks output -> some_occurs ks' output.
Proof.
  intros H (k & Hk & Ho). destruct (H k Hk) as (k' & Hk' & Ho').
  exists k'. split; [done|]. by eapply occurs_trans.
Qed.

Lemma occurs_refl k : occurs k k.
Proof. exists EmptyString, EmptyString. by rewrite str_app_nil_r. Qed.

Lemma scan_keywords_ext ks ks' output :
  (some_occurs ks output <-> some_occurs ks' output) ->
  scan_keywords ks output = scan_keywords ks' output.
Proof.
  rewrite <- !scan_keywords_spec. intros H.
  destruct (scan_keywords ks output), (scan_keywords ks' output); try done.
  - symmetry. by apply H.
  - by apply H.
Qed.

Lemma classify_output_available_inv text :
  (classify_output text).1 = true -> some_occurs not_found_keywords (lower text).
Proof.
  unfold classify_output. intros H. apply scan_keywords_spec.
  destruct (scan_keywords _ _); [done|]. by destruct (_ || _).
Qed.

End MoreClassifier.

(** X7: the answer of the loop of lines 79-81 does not depend on the
    order of the keywords, and the first keyword, domain not found, is
    never the one that decides: the other seven give the same answer on
    every text. *)
Theorem scan_keywords_order_and_redundancy (output : string) :
  (forall ks ks', ks ≡ₚ ks' -> scan_keywords ks output = scan_keywords ks' output) /\
  scan_keywords not_found_keywords output
  = scan_keywords
      [ "no match"; "not found"; "no data found"; "no entries found";
        "status: free"; "status: available"; "object does not exist" ] output.
Proof.
  split.
  - intros ks ks' Hp. apply scan_keywords_ext.
    split; intros (k & Hk & Ho); exists k; (split; [|done]).
    + by rewrite <- Hp.
    + by rewrite Hp.
  - apply scan_keywords_ext. split; apply some_occurs_subset; intros k Hk.
    + apply elem_of_cons in Hk as [->|Hk].
      * exists "not found". split; [by apply (bool_decide_unpack _)|].
        by exists "domain ", EmptyString.
      * exists k. split; [done | apply occurs_refl].
    + exists k. split; [by right | apply occurs_refl].
Qed.

(** X8: an available answer survives any text around it: when a text
    is classified available, so is every text that contains it. *)
Theorem classify_output_available_grows (text before after : string) :
  (classify_output text).1 = true ->
  classify_output (before +:+ text +:+ after) = (true, "域名可注册").
Proof.
  intros (k & Hk & Ho)%classify_output_available_inv.
  apply classify_output_available. exists k. split; [done|].
  rewrite !lower_app. by apply occurs_inside.
Qed.

Lemma classify_output_available_grows_witness :
  classify_output ("Registrar: X" +:+ nl +:+ "No match for domain" +:+ nl +:+ "Domain Name: Y")
  = (true, "域名可注册").
Proof.
  exact (classify_output_available_grows "No match for domain"
           ("Registrar: X" +:+ nl) (nl +:+ "Domain Name: Y") eq_refl).
Defined.

(** X9: [check_domain_whois] always answers, and in its answer the
    flag and the message agree: the flag is True exactly when the message
    is the one of an available domain. *)
Theorem check_domain_whois_flag_message {py : Python} (w : World) (n : nat) (domain : string) :
  exists flag info,
    outcome (check_domain_whois w n domain) = Ret (flag, info) /\
    (flag = true <-> info = "域名可注册").
Proof.
  rewrite check_domain_whois_eq. cbn [outcome].
  destruct (whois_reply w n domain) as [e|stdout].
  - destruct (exn_kind e); exists false; eexists; (split; [reflexivity|]);
      (split; [done|]); intros Heq; vm_compute in Heq; discriminate Heq.
  - unfold classify_output.
    destruct (scan_keywords _ _); [by eexists _, _|].
    destruct (_ || _); eexists _, _; (split; [reflexivity|]); split; try done;
      intros Heq; vm_compute in Heq; discriminate Heq.
Qed.

(** ** More on the notifier *)

Section MoreNotifier.

Ltac session w :=
  unfold try_except, smtp_session, leaving_with, smtp;
  destruct (smtp_fault w Connect) eqn:?;
  destruct (smtp_fault w StartTls) eqn:?;
  destruct (smtp_fault w Login) eqn:?;
  destruct (smtp_fault w SendMessage) eqn:?;
  destruct (smtp_fault w Quit) eqn:?; simpl.

Lemma send_email_sent_inv w cfg available :
  sent_mails (trace (send_email w cfg available)) <> [] ->
  credentials cfg /\ first_fault w = None.
Proof.
  unfold send_email, first_fault.
  destruct (forallb _ _) eqn:Hc; simpl; [|done].
  apply credentials_truthy in Hc. session w; done.
Qed.



Lemma send_email_order w cfg available :
  (forall i, first_index is_login (trace (send_email w cfg available)) = Some i ->
     exists j, first_index is_starttls (trace (send_email w cfg available)) = Some j /\
               (j < i)%nat) /\
  (forall i, first_index is_send (trace (send_email w cfg available)) = Some i ->
     exists j, first_index is_login (trace (send_email w cfg available)) = Some j /\
               (j < i)%nat).
Proof.
  unfold send_email. destruct (forallb _ _); simpl; [|by split].
  session w; split; intros i [= <-]; eexists; (split; [reflexivity | lia]).
Qed.

End MoreNotifier.




(** X12: the steps of the session keep their order: the login, with
    the password, comes only after the upgrade to an encrypted channel
    has succeeded, and the message only after the login. *)
Theorem send_email_steps_in_order (w : World) (cfg : Config) (available : list string)
    (i : nat) :
  first_index is_login (trace (send_email w cfg available)) = Some i \/
  first_index is_send (trace (send_email w cfg available)) = Some i ->
  exists j k,
    first_index is_starttls (trace (send_email w cfg available)) = Some j /\
    first_index is_login (trace (send_email w cfg available)) = Some k /\
    (j < k <= i)%nat.
Proof.
  destruct (send_email_order w cfg available) as [H1 H2].
  intros [H|H].
  - destruct (H1 i H) as (j & Hj & Hlt). exists j, i. repeat split; try done; lia.
  - destruct (H2 i H) as (k & Hk & Hlt). destruct (H1 k Hk) as (j & Hj & Hlt').
    exists j, k. repeat split; try done; lia.
Qed.

Lemma send_email_steps_in_order_witness :
  exists j k,
    first_index is_starttls (trace (send_email w_two_free sample_cfg ["foo.xyz"])) = Some j /\
    first_index is_login (trace (send_email w_two_free sample_cfg ["foo.xyz"])) = Some k /\
    (j < k <= 3)%nat.
Proof.
  apply (send_email_steps_in_order w_two_free sample_cfg ["foo.xyz"] 3).
  right. reflexivity.
Defined.

(** ** More on the run *)

Section MoreRun.
Context {py : Python}.



Lemma trigger_channel_spec w path :
  trigger_channel w = Some path <->
  environ w !! "GITHUB_OUTPUT" = Some path /\ path <> EmptyString.
Proof.
  unfold trigger_channel. destruct (environ w !! "GITHUB_OUTPUT") as [q|].
  - destruct q as [|c q]; cbn [truthy].
    + split; [done|]. by intros [[= <-] H].
    + split; [by intros [= <-] | by intros [[= <-] _]].
  - split; [done | by intros [H _]].
Qed.




End MoreRun.







(** X16: every lookup of a run comes before anything else it does to
    the outside: the trace of a run splits in a first part without any
    step of a mail session, file written or file appended to, and a
    second part without any lookup. *)
Theorem lookups_come_first {py : Python} (w : World) :
  exists t1 t2,
    trace (program w) = t1 ++ t2 /\
    mail_events t1 = [] /\ written t1 = [] /\ appended t1 = [] /\
    lookups t2 = [].
Proof.
  destruct (load_config_cases (environ w)) as [[cfg Hcfg]|[e Hcfg]].
  - rewrite (program_eq _ _ Hcfg).
    destruct (filesystem w !! WATCHLIST_FILE cfg) as [[content|err|err]|] eqn:Hfile.
    + assert (loaded w cfg (load_lines (file_lines content) [])) as Hl by by exists content.
      destruct (load_lines (file_lines content) []) as [|d r] eqn:Hd.
      * exists (trace (main w cfg)), []. rewrite app_nil_r, (main_empty _ _ Hl), banner_eq.
        by repeat split.
      * rewrite (main_loaded _ _ _ Hl) by done. cbn [trace].
        exists (trace (banner w)
                ++ EPrint ((nl +:+ "监控 " +:+ str_of_nat (length (d :: r)) +:+ " 个域名:")
                           +:+ nl)
                :: map (fun d => EPrint (("  - " +:+ d) +:+ nl)) (d :: r)
                ++ EPrint (repeat_str "-" 60 +:+ nl)
                :: trace (check_all w 0 (d :: r) [])),
               (trace (report w cfg (found_available w 0 (d :: r)))).
        split; [by rewrite <- !app_assoc; cbn [app]; rewrite <- !app_assoc|].
        destruct (check_all_quiet w 0 (d :: r) []) as (_ & Hw & Ha).
        pose proof (check_all_no_mail w 0 (d :: r) []) as Hm.
        unfold mail_events, written, appended in *.
        rewrite banner_eq. cbn [trace app]. rewrite !omap_print by done.
        rewrite !omap_app, !(omap_prints _ (fun d => ("  - " +:+ d) +:+ nl)) by done.
        rewrite !omap_print by done. rewrite Hw, Ha, Hm.
        repeat split. apply report_lookups.
    + exists (trace (main w cfg)), []. rewrite app_nil_r, (main_refused _ _ _ Hfile), banner_eq.
      by repeat split.
    + exists (trace (main w cfg)), []. rewrite app_nil_r, (main_garbled _ _ _ Hfile), banner_eq.
      by repeat split.
    + exists (trace (main w cfg)), []. rewrite app_nil_r, (main_missing _ _ Hfile), banner_eq.
      by repeat split.
  - exists [], []. unfold program. rewrite Hcfg. by repeat split.
Qed.

(** X17: a mail goes out only from a run that found a domain
    available, with complete credentials and a session whose four steps
    succeeded; it is then the only mail of the run and the one built from
    the available domains. *)
Theorem mail_only_when_available {py : Python} (w : World) (mail : email) :
  mail ∈ sent_mails (trace (program w)) ->
  exists cfg domains,
    load_config (environ w) = Ret cfg /\
    loaded w cfg domains /\
    found_available w 0 domains <> [] /\
    credentials cfg /\
    first_fault w = None /\
    sent_mails (trace (program w)) = [mail] /\
    mail = build_message w cfg (found_available w 0 domains).
Proof.
  intros Hin.
  destruct (load_config_cases (environ w)) as [[cfg Hcfg]|[e Hcfg]].
  - rewrite (program_eq _ _ Hcfg) in *.
    destruct (filesystem w !! WATCHLIST_FILE cfg) as [[content|err|err]|] eqn:Hfile.
    + assert (loaded w cfg (load_lines (file_lines content) [])) as Hl by by exists content.
      destruct (load_lines (file_lines content) []) as [|d r] eqn:Hd.
      * rewrite (main_empty _ _ Hl), banner_eq in Hin. by apply elem_of_nil in Hin.
      * rewrite (main_sent_mails _ _ _ Hl) in Hin |- * by done.
        destruct (found_available w 0 (d :: r)) as [|a av] eqn:Hav;
          [by apply elem_of_nil in Hin|].
        cbn [nonempty] in *.
        assert (sent_mails (trace (send_email w cfg (a :: av))) <> []) as Hne.
        { intros H. rewrite H in Hin. by apply elem_of_nil in Hin. }
        destruct (send_email_sent_inv _ _ _ Hne) as [Hc Hf].
        destruct (send_email_sent w cfg (a :: av) Hc Hf) as [Hs _].
        rewrite Hs in Hin |- *. apply list_elem_of_singleton in Hin as ->.
        exists cfg, (d :: r). rewrite Hav. by split_and!.
    + rewrite (main_refused _ _ _ Hfile), banner_eq in Hin. by apply elem_of_nil in Hin.
    + rewrite (main_garbled _ _ _ Hfile), banner_eq in Hin. by apply elem_of_nil in Hin.
    + rewrite (main_missing _ _ Hfile), banner_eq in Hin. by apply elem_of_nil in Hin.
  - unfold program in Hin. rewrite Hcfg in Hin. by apply elem_of_nil in Hin.
Qed.

Lemma mail_only_when_available_witness :
  exists cfg domains,
    load_config (py := sample_python) (environ w_two_free) = Ret cfg /\
    loaded (py := sample_python) w_two_free cfg domains /\
    found_available (py := sample_python) w_two_free 0 domains <> [] /\
    credentials cfg /\
    first_fault w_two_free = None /\
    sent_mails (trace (program (py := sample_python) w_two_free))
    = [build_message w_two_free sample_cfg ["foo.xyz"; "bar.com"]] /\
    build_message w_two_free sample_cfg ["foo.xyz"; "bar.com"]
    = build_message w_two_free cfg (found_available (py := sample_python) w_two_free 0 domains).
Proof.
  apply (mail_only_when_available (py := sample_python) w_two_free
           (build_message w_two_free sample_cfg ["foo.xyz"; "bar.com"])).
  vm_compute. left.
Defined.

(** X19: the only file a run writes is [available_domains.txt], the
    only file it appends to is the one GITHUB_OUTPUT names, and it does
    each at most once; it sends at most one mail. *)
Theorem run_touches_two_files_at_most {py : Python} (w : World) :
  (forall path text, (path, text) ∈ written (trace (program w)) ->
     path = "available_domains.txt") /\
  (forall path text, (path, text) ∈ appended (trace (program w)) ->
     environ w !! "GITHUB_OUTPUT" = Some path) /\
  (length (written (trace (program w))) <= 1)%nat /\
  (length (appended (trace (program w))) <= 1)%nat /\
  (length (sent_mails (trace (program w))) <= 1)%nat.
Proof.
  assert (forall text,
            (forall path x, (path, x) ∈ appended (trace (github_output w text)) ->
               environ w !! "GITHUB_OUTPUT" = Some path) /\
            (length (appended (trace (github_output w text))) <= 1)%nat) as Hout.
  { intros text. rewrite github_output_appended.
    destruct (trigger_channel w) as [p|] eqn:Ht.
    - apply trigger_channel_spec in Ht as [Ht _].
      destruct (write_fault w ModeA p); simpl; (split; [|lia]).
      + by intros ?? ?%elem_of_nil.
      + by intros ?? [= -> _]%list_elem_of_singleton.
    - simpl. split; [by intros ?? ?%elem_of_nil | lia]. }
  destruct (load_config_cases (environ w)) as [[cfg Hcfg]|[e Hcfg]].
  - rewrite (program_eq _ _ Hcfg).
    destruct (filesystem w !! WATCHLIST_FILE cfg) as [[content|err|err]|] eqn:Hfile.
    + assert (loaded w cfg (load_lines (file_lines content) [])) as Hl by by exists content.
      destruct (load_lines (file_lines content) []) as [|d r] eqn:Hd.
      * rewrite (main_empty _ _ Hl), banner_eq. cbn.
        repeat split; try lia; by intros ?? ?%elem_of_nil.
      * destruct (main_observed _ _ _ Hl ltac:(done)) as (_ & _ & _ & Hw & Ha).
        rewrite Hw, Ha, (main_sent_mails _ _ _ Hl) by done.
        rewrite save_results_written, save_results_appended.
        split_and!.
        -- intros path text. destruct (nonempty _); [|by intros ?%elem_of_nil].
           destruct (write_fault w ModeW "available_domains.txt"); [by intros ?%elem_of_nil|].
           by intros [= -> _]%list_elem_of_singleton.
        -- intros path text. destruct (nonempty _); [|apply Hout].
           destruct (write_fault w ModeW "available_domains.txt");
             [by intros ?%elem_of_nil | apply Hout].
        -- destruct (nonempty _); [|simpl; lia].
           destruct (write_fault w ModeW "available_domains.txt"); simpl; lia.
        -- destruct (nonempty _); [|apply Hout].
           destruct (write_fault w ModeW "available_domains.txt"); [simpl; lia | apply Hout].
        -- destruct (nonempty _); [|simpl; lia].
           destruct (send_email_at_most_one w cfg (found_available w 0 (d :: r)))
             as [-> | ->]; simpl; lia.
    + rewrite (main_refused _ _ _ Hfile), banner_eq. cbn.
      repeat split; try lia; by intros ?? ?%elem_of_nil.
    + rewrite (main_garbled _ _ _ Hfile), banner_eq. cbn.
      repeat split; try lia; by intros ?? ?%elem_of_nil.
    + rewrite (main_missing _ _ Hfile), banner_eq. cbn.
      repeat split; try lia; by intros ?? ?%elem_of_nil.
  - unfold program. rewrite Hcfg. cbn.
    repeat split; try lia; by intros ?? ?%elem_of_nil.
Qed.

Lemma run_touches_two_files_at_most_witness :
  environ w_two_free !! "GITHUB_OUTPUT" = Some "/tmp/github_output" /\
  (length (sent_mails (trace (program (py := sample_python) w_two_free))) <= 1)%nat.
Proof.
  destruct (run_touches_two_files_at_most (py := sample_python) w_two_free)
    as (_ & Ha & _ & _ & Hs).
  split; [|exact Hs].
  apply (Ha "/tmp/github_output" ("available=true" +:+ nl +:+ "count=2" +:+ nl)).
  vm_compute. left.
Defined.

Section WriteFaults.
Context {py : Python}.

Lemma found_available_with_write_fault w refused n domains :
  found_available (with_write_fault w refused) n domains = found_available w n domains.
Proof.
  revert n. induction domains as [|d r IH]; intros n; [done|].
  cbn [found_available].
  change (classified_available (with_write_fault w refused) n d)
    with (classified_available w n d).
  by rewrite IH.
Qed.

Lemma loaded_with_write_fault w refused cfg domains :
  loaded w cfg domains -> loaded (with_write_fault w refused) cfg domains.
Proof. intros (content & H1 & H2). by exists content. Qed.

Lemma main_mail_events w cfg domains :
  loaded w cfg domains ->
  mail_events (trace (main w cfg))
  = if nonempty (found_available w 0 domains)
    then mail_events (trace (send_email w cfg (found_available w 0 domains)))
    else [].
Proof.
  intros Hl. destruct domains as [|d r].
  - by rewrite (main_empty _ _ Hl), banner_eq.
  - by apply (main_observed _ _ _ Hl).
Qed.

Lemma main_with_write_fault w refused cfg :
  lookups (trace (main (with_write_fault w refused) cfg)) = lookups (trace (main w cfg)) /\
  mail_events (trace (main (with_write_fault w refused) cfg))
  = mail_events (trace (main w cfg)).
Proof.
  destruct (filesystem w !! WATCHLIST_FILE cfg) as [[content|err|err]|] eqn:Hfile.
  - assert (loaded w cfg (load_lines (file_lines content) [])) as Hl by by exists content.
    pose proof (loaded_with_write_fault w refused _ _ Hl) as Hl'.
    rewrite (main_lookups _ _ _ Hl), (main_lookups _ _ _ Hl').
    rewrite (main_mail_events _ _ _ Hl), (main_mail_events _ _ _ Hl').
    by rewrite found_available_with_write_fault.
  - by rewrite (main_refused w cfg err), (main_refused (with_write_fault w refused) cfg err).
  - by rewrite (main_garbled w cfg err), (main_garbled (with_write_fault w refused) cfg err).
  - by rewrite (main_missing w cfg), (main_missing (with_write_fault w refused) cfg).
Qed.

End WriteFaults.

(** X20: what a run looks up and what it does with the mail relay do
    not depend on whether its files can be written: the lookups and the
    steps of the mail session are the same in a world where the writing
    of any file fails. *)
Theorem write_faults_after_lookups_and_mail {py : Python} (w : World)
    (refused : open_mode -> string -> option exn) :
  lookups (trace (program (with_write_fault w refused))) = lookups (trace (program w)) /\
  mail_events (trace (program (with_write_fault w refused)))
  = mail_events (trace (program w)) /\
  sent_mails (trace (program (with_write_fault w refused)))
  = sent_mails (trace (program w)).
Proof.
  assert (forall t t', mail_events t = mail_events t' -> sent_mails t = sent_mails t')
    as Hsent.
  { intros t t' H.
    assert (forall u, sent_mails u = sent_mails (mail_events u)) as Hu.
    { unfold sent_mails, mail_events. induction u as [|e u IH]; [done|].
      destruct e; simpl; try exact IH. f_equal. exact IH. }
    by rewrite (Hu t), (Hu t'), H. }
  unfold program. cbn [environ with_write_fault].
  destruct (load_config_cases (environ w)) as [[cfg Hcfg]|[e Hcfg]]; rewrite Hcfg.
  - rewrite !bind_lift.
    destruct (main_with_write_fault w refused cfg) as [Hk Hm].
    split; [done|]. split; [done | by apply Hsent].
  - done.
Qed.

Lemma write_faults_after_lookups_and_mail_witness :
  sent_mails (trace (program (py := sample_python) w_result_refused))
  = sent_mails (trace (program (py := sample_python) w_two_free)) /\
  lookups (trace (program (py := sample_python) w_result_refused))
  = lookups (trace (program (py := sample_python) w_two_free)).
Proof.
  destruct (write_faults_after_lookups_and_mail (py := sample_python) w_two_free
              (fun _ path =>
                 if decide (path = "available_domains.txt")
                 then Some (Exn OSError
                              "[Errno 13] Permission denied: 'available_domains.txt'")
                 else None))
    as (Hk & _ & Hs).
  split; [exact Hs | exact Hk].
Defined.



Lemma scan_keywords_order_and_redundancy_witness :
  scan_keywords ["status: free"; "no match"] "no match for x"
  = scan_keywords ["no match"; "status: free"] "no match for x".
Proof.
  apply (proj1 (scan_keywords_order_and_redundancy "no match for x")).
  apply perm_swap.
Defined.
